(** * The asset designer page: reducer, query synchronisation and selection

    A shallow embedding of [src/server/routes/pages/AssetDesignerPage.tsx].

    The page keeps its state in a React reducer.  The reducer copies the
    variables object one level deep and then lets lodash's [set] write into
    it, which mutates every nested object on the way; nested objects are
    shared between the old and the new state.  The model therefore keeps an
    explicit store of JavaScript objects and threads it, together with the
    browser's location and history, through every operation.

    Scope of the model.
    - Objects carry their own properties only (no prototype chain), numbers
      are integers, and property order is not recorded.
    - lodash, query-string, JSON and the template and component registries
      are not part of the file.  lodash's [get], [set] and [fromPairs] are
      written out after their published behaviour for property paths made of
      dots; the bracket syntax of paths is not covered, and statements about
      paths say so.  The serialisers and the registries are parameters.
    - The styled wrappers and the sidebar widgets are presentation only and
      are left out; the page's output keeps the resolved theme, the resolved
      selection, the overlaid variables and the main element. *)

From Stdlib Require Import ZArith String Ascii.
From stdpp Require Import base option list strings gmap.

Local Open Scope string_scope.
Local Open Scope list_scope.
Local Open Scope nat_scope.

(** ** JavaScript values and the object store *)

Module JS.

Abbreviation loc := nat.

(** Primitive values, and references to objects (plain objects, arrays). *)
Inductive jsvalue : Type :=
| VUndefined
| VNull
| VBool (b : bool)
| VNumber (n : Z)
| VString (s : string)
| VRef (l : loc).

#[global] Instance jsvalue_eq_dec : EqDecision jsvalue.
Proof. solve_decision. Defined.

#[global] Instance jsvalue_inhabited : Inhabited jsvalue := populate VUndefined.

Inductive obj_kind : Type := PlainObject | ArrayObject.

#[global] Instance obj_kind_eq_dec : EqDecision obj_kind.
Proof. solve_decision. Defined.

Record object : Type := Object { kind : obj_kind; props : gmap string jsvalue }.

Abbreviation Heap := (list object).

(** [{}] and [[]]. *)
Definition empty_object : object := Object PlainObject ∅.
Definition empty_array : object := Object ArrayObject ∅.

(** [a === b]; without NaN it is equality of values, references compared
    by identity. *)
Definition strict_eq (a b : jsvalue) : bool := bool_decide (a = b).

(** Own property [k] of the object at [l], if any. *)
Definition heap_lookup (h : Heap) (l : loc) (k : string) : option jsvalue :=
  o ← h !! l; props o !! k.

(** [object[k]] for the object at [l]. *)
Definition heap_get (h : Heap) (l : loc) (k : string) : jsvalue :=
  default VUndefined (heap_lookup h l k).

(** [isObject(v)], with the object's location when it holds. *)
Definition isObject (v : jsvalue) : option loc :=
  match v with
  | VRef l => Some l
  | _ => None
  end.

(** [v[k]] for a value that is not null or undefined; primitives have no
    properties here. *)
Definition member (h : Heap) (v : jsvalue) (k : string) : jsvalue :=
  match v with
  | VRef l => heap_get h l k
  | _ => VUndefined
  end.

(** [k in Object(v)]. *)
Definition key_in (h : Heap) (v : jsvalue) (k : string) : bool :=
  match v with
  | VRef l => bool_decide (is_Some (heap_lookup h l k))
  | _ => false
  end.

Definition obj_set (k : string) (v : jsvalue) (o : object) : object :=
  Object (kind o) (<[k := v]> (props o)).

(** [object[k] = v], in place. *)
Definition heap_assign (h : Heap) (l : loc) (k : string) (v : jsvalue) : Heap :=
  alter (obj_set k v) l h.

(** A new object; its reference is the next free location. *)
Definition alloc (h : Heap) (o : object) : Heap * loc := (h ++ [o], length h).

(** Own properties of whatever [v] refers to, as the spread [{...v}]
    copies them. *)
Definition own_props (h : Heap) (v : jsvalue) : gmap string jsvalue :=
  match v with
  | VRef l => from_option props ∅ (h !! l)
  | _ => ∅
  end.

End JS.

Export JS.

(** ** lodash: [get], [set] and [fromPairs]

    Written after lodash 4.17: [castPath]/[isKey]/[stringToPath] turn a
    string into a list of keys, [baseGet] follows the keys, [baseSet] walks
    the keys, reusing an object it finds under a key, creating one where it
    finds anything else, and assigning the value under the last key. *)

Module Lodash.

Definition is_dot (c : ascii) : bool := Ascii.eqb c "."%char.

Definition is_digit (c : ascii) : bool :=
  let n := nat_of_ascii c in (48 <=? n)%nat && (n <=? 57)%nat.

Fixpoint all_digits (s : string) : bool :=
  match s with
  | EmptyString => true
  | String c s' => is_digit c && all_digits s'
  end.

(** [reIsUint]: a single zero, or digits that do not start with zero. *)
Definition reIsUint (s : string) : bool :=
  match s with
  | EmptyString => false
  | String c s' =>
      if Ascii.eqb c "0"%char
      then bool_decide (s' = EmptyString)
      else is_digit c && all_digits s'
  end.

Fixpoint digits_value (acc : Z) (s : string) : Z :=
  match s with
  | EmptyString => acc
  | String c s' =>
      digits_value (10 * acc + Z.of_nat (nat_of_ascii c - 48)) s'
  end.

Definition MAX_SAFE_INTEGER : Z := 9007199254740991.

(** [isIndex(key)]: the key is the decimal form of an array index. *)
Definition isIndex (s : string) : bool :=
  reIsUint s && (digits_value 0 s <? MAX_SAFE_INTEGER)%Z.

(** The part of [reIsDeepProp] that concerns dots: the string contains
    one. *)
Fixpoint reIsDeepProp (s : string) : bool :=
  match s with
  | EmptyString => false
  | String c s' => is_dot c || reIsDeepProp s'
  end.

(** Paths written with dots only: no bracket occurs. *)
Fixpoint dotted (s : string) : bool :=
  match s with
  | EmptyString => true
  | String c s' =>
      negb (Ascii.eqb c "["%char) && negb (Ascii.eqb c "]"%char) && dotted s'
  end.

(** [stringToPath] on a dotted string: the segments between the dots. *)
Fixpoint stringToPath (s : string) : list string :=
  match s with
  | EmptyString => [EmptyString]
  | String c s' =>
      if is_dot c then EmptyString :: stringToPath s'
      else match stringToPath s' with
           | seg :: segs => String c seg :: segs
           | [] => [String c EmptyString]
           end
  end.

(** [isKey(value, object)]: a string without a dot, or one that is itself
    a key of the object, is a single key. *)
Definition isKey (h : Heap) (object : jsvalue) (s : string) : bool :=
  negb (reIsDeepProp s) || key_in h object s.

Definition castPath (h : Heap) (object : jsvalue) (s : string) : list string :=
  if isKey h object s then [s] else stringToPath s.

(** The loop of [baseGet]: stops with undefined on null or undefined
    before the keys run out. *)
Fixpoint baseGet_from (h : Heap) (object : jsvalue) (path : list string) : jsvalue :=
  match path with
  | [] => object
  | key :: rest =>
      match object with
      | VUndefined | VNull => VUndefined
      | _ => baseGet_from h (member h object key) rest
      end
  end.

Definition baseGet (h : Heap) (object : jsvalue) (s : string) : jsvalue :=
  match castPath h object s with
  | [] => VUndefined
  | path => baseGet_from h object path
  end.

(** [get(object, path)] *)
Definition get (h : Heap) (object : jsvalue) (s : string) : jsvalue :=
  match object with
  | VUndefined | VNull => VUndefined
  | _ => baseGet h object s
  end.

(** [assignValue]: writes unless the key is already an own property
    holding the same value. *)
Definition assignValue (h : Heap) (l : loc) (key : string) (v : jsvalue) : Heap :=
  match heap_lookup h l key with
  | Some objValue => if strict_eq objValue v then h else heap_assign h l key v
  | None => heap_assign h l key v
  end.

(** Keys [baseSet] refuses to walk through. *)
Definition unsafe_key (key : string) : bool :=
  bool_decide (key = "__proto__") || bool_decide (key = "constructor")
  || bool_decide (key = "prototype").

(** The loop of [baseSet], from the object at [nested]: under every key
    but the last it keeps what it finds when [isObject] holds of it, and
    puts a new array or object there otherwise. *)
Fixpoint baseSet (h : Heap) (nested : loc) (path : list string) (v : jsvalue) : Heap :=
  match path with
  | [] => h
  | key :: rest =>
      if unsafe_key key then h
      else
        match rest with
        | [] => assignValue h nested key v
        | next :: _ =>
            match isObject (heap_get h nested key) with
            | Some l => baseSet (assignValue h nested key (VRef l)) l rest v
            | None =>
                let '(h1, l) :=
                  alloc h (if isIndex next then empty_array else empty_object) in
                baseSet (assignValue h1 nested key (VRef l)) l rest v
            end
        end
  end.

(** [set(object, path, value)]: mutates what [object] refers to. *)
Definition set (h : Heap) (object : jsvalue) (s : string) (v : jsvalue) : Heap :=
  match object with
  | VRef l => baseSet h l (castPath h object s) v
  | _ => h
  end.

(** [fromPairs(pairs)]: a new object, the pairs assigned in order. *)
Definition fromPairs (h : Heap) (pairs : list (string * jsvalue)) : Heap * loc :=
  alloc h (Object PlainObject (foldl (λ m kv, <[kv.1 := kv.2]> m) ∅ pairs)).

(** The objects [baseSet] writes into when they exist already: the one
    it starts from and those it reaches under the keys before the last. *)
Fixpoint spine (h : Heap) (l : loc) (path : list string) : list loc :=
  match path with
  | [] => []
  | key :: rest =>
      l :: match rest with
           | [] => []
           | _ :: _ =>
               match isObject (heap_get h l key) with
               | Some l' => spine h l' rest
               | None => []
               end
           end
  end.

End Lodash.

(** ** The browser, errors, and the page's computations *)

Record World : Type := mkWorld {
  heap : Heap;
  location_search : string;   (* [location.search] *)
  history : list string       (* the entries pushed so far, oldest first *)
}.

Inductive error : Type :=
| Error (message : string)    (* [new Error(message)] *)
| TypeError.                  (* reading a property of undefined, and the like *)

Inductive result (A : Type) : Type :=
| Ok (a : A)
| Throw (e : error).
Arguments Ok {A} a.
Arguments Throw {A} e.

(** A computation reads and updates the world, and returns or throws. *)
Definition M (A : Type) : Type := World → result (A * World).

Definition ret {A} (a : A) : M A := λ w, Ok (a, w).

Definition bind {A B} (m : M A) (k : A → M B) : M B :=
  λ w, match m w with
       | Ok (a, w') => k a w'
       | Throw e => Throw e
       end.

Definition throw {A} (e : error) : M A := λ _, Throw e.

Definition get_heap : M Heap := λ w, Ok (heap w, w).

Definition put_heap (h : Heap) : M unit :=
  λ w, Ok (tt, mkWorld h (location_search w) (history w)).

Declare Scope js_scope.
Delimit Scope js_scope with js.
Notation "x <- c1 ;; c2" := (bind c1 (λ x, c2))
  (at level 100, c1 at next level, right associativity) : js_scope.
Notation "c1 ;;; c2" := (bind c1 (λ _, c2))
  (at level 100, right associativity) : js_scope.

(** [history.push(path)] with a path that is a query: a new entry, and the
    location's search becomes the query ([location.search] is empty for an
    empty query). *)
Definition history_push (path : string) : M unit :=
  λ w, Ok (tt, mkWorld (heap w)
                 (if bool_decide (path = "?") then "" else path)
                 (history w ++ [path])).

(** ** Themes, selections and the designer's state *)

(** A theme, as far as the page reads it: [id] and [colors.background]. *)
Record Theme : Type := mkTheme {
  theme_id : string;
  colors_background : string
}.

(** A variable descriptor of a template or component: its [id] and its
    [validation] object (undefined when it has none). *)
Record VariableDescriptor : Type := mkVariable {
  variable_id : string;
  validation : jsvalue
}.

#[warnings="-register-all"]
Inductive Element : Type :=
| Text (s : string)
| Fragment (children : list Element)
| Node (tag : string) (children : list Element).

(** The props of the main element: [{ ...state.variables, theme, id }];
    [theme] and [id] replace variables of the same name. *)
Record ElementProps : Type := mkElementProps {
  props_variables : gmap string jsvalue;
  props_theme : option Theme;
  props_id : string
}.

(** A template or component: a function of props to render, with an
    optional [variables] list and a [filename]. *)
Record Renderable : Type := mkRenderable {
  render : Heap → ElementProps → result Element;
  declared_variables : option (list VariableDescriptor);
  filename : jsvalue
}.

(** [function NoSelectionFound() { return <>No selection found!</>; }] *)
Definition NoSelectionFound : Renderable :=
  {| render := λ _ _, Ok (Fragment [Text "No selection found!"]);
     declared_variables := None;
     filename := VUndefined |}.

Record DesignerState : Type := mkState {
  themeId : jsvalue;
  selectionId : jsvalue;
  variables : loc      (* the variables object *)
}.

(** [enum ActionTypes] *)
Module ActionTypes.
Definition UPDATE_SELECTION_ID : jsvalue := VNumber 0.
Definition UPDATE_THEME_ID : jsvalue := VNumber 1.
Definition UPDATE_VARIABLE : jsvalue := VNumber 2.
End ActionTypes.

(** An action object; [field] is a string where a caller passes one and
    undefined ([None]) otherwise. *)
Record Action : Type := mkAction {
  type : jsvalue;
  field : option string;
  value : jsvalue
}.

Record AssetDesignerPageProps : Type := mkProps {
  initialState : option (gmap string jsvalue);
  themes : option (list Theme)
}.

(** What the page hands to the renderer. *)
Record View : Type := mkView {
  view_theme : option Theme;
  view_sidebar_background : string;
  view_selection : Renderable;
  view_variables : list (VariableDescriptor * jsvalue);
  view_main_props : ElementProps
}.


(** The first two statements of the reducer's [UPDATE_VARIABLE] case: the
    one-level copy [{ ...state.variables }] and lodash's [set] on the copy.
    Returns the store afterwards and the location of the copy. *)
Definition write_variable (h : Heap) (vars : loc) (path : string) (v : jsvalue)
  : Heap * loc :=
  let '(h1, newVariables) := alloc h (Object PlainObject (own_props h (VRef vars))) in
  (Lodash.set h1 (VRef newVariables) path v, newVariables).

(** ** A small instance: one template, one component, two themes *)

Module Demo.

(** Store: the validation object of the template's variable, a nested
    value, and a variables object [{ color: "red", speaker: {name: "Ann"} }]. *)
Definition store : Heap :=
  [ Object PlainObject {[ "default" := VString "blue" ]};
    Object PlainObject {[ "name" := VString "Ann" ]};
    Object PlainObject {[ "color" := VString "red"; "speaker" := VRef 1 ]} ].

Definition talk : Renderable :=
  {| render := λ _ _, Ok (Node "section" [Text "talk"]);
     declared_variables := Some [mkVariable "color" (VRef 0)];
     filename := VString "talk" |}.

Definition badge : Renderable :=
  {| render := λ _ _, Ok (Node "span" [Text "badge"]);
     declared_variables := None;
     filename := VString "badge" |}.

Definition templates : gmap string Renderable := {[ "talk" := talk ]}.
Definition components : gmap string Renderable := {[ "badge" := badge ]}.

Definition host_toString (h : Heap) (v : jsvalue) : string :=
  match v with
  | VUndefined => "undefined"
  | VNull => "null"
  | VBool true => "true"
  | VBool false => "false"
  | _ => "[object Object]"
  end.

Definition JSON_stringify (h : Heap) (v : jsvalue) : option string :=
  match v with
  | VRef _ => Some "{}"
  | _ => None
  end.

Definition search : string := "?selectionId=talk&themeId=dark&variables=%7B%7D".

Definition queryString_parse (s : string) : gmap string jsvalue :=
  if bool_decide (s = search)
  then {[ "selectionId" := VString "talk"; "themeId" := VString "dark";
          "variables" := VString "{}" ]}
  else ∅.

Definition queryString_stringify (h : Heap) (m : gmap string jsvalue) : string :=
  match m !! "selectionId" with
  | Some (VString s) => "selectionId=" +:+ s
  | _ => ""
  end.

Definition themes : list Theme := [mkTheme "light" "#fff"; mkTheme "dark" "#000"].

Definition world : World := mkWorld store search [].

Definition state : DesignerState := mkState (VString "") (VString "talk") 2.

End Demo.

(** ** The sidebar's widgets *)

(** Whether a value counts as true in [a || b] and [a ? b : c]. *)
Definition truthy (v : jsvalue) : bool :=
  match v with
  | VUndefined | VNull => false
  | VBool b => b
  | VNumber n => negb (n =? 0)%Z
  | VString s => negb (bool_decide (s = ""))
  | VRef _ => true
  end.

(** [Object.keys(m)]; the order of the keys is not that of JavaScript. *)
Definition Object_keys {A} (m : gmap string A) : list string :=
  (map_to_list m).*1.

(** What [ComponentSelector] renders for one id: the selected id as plain
    text, every other id as a link with its click handler. *)
Inductive SelectorItem (A : Type) : Type :=
| SelectedOption (templateId : string)
| ClickableOption (templateId : string) (onClick : A).
Arguments SelectedOption {A} templateId.
Arguments ClickableOption {A} templateId onClick.

(** [ComponentSelector]; [onChange] is the prop, [A] what calling it does. *)
Definition ComponentSelector {A} (templates : list string)
    (selectedTemplate : jsvalue) (onChange : string → A)
  : list (SelectorItem A) :=
  map (λ templateId,
         if strict_eq (VString templateId) selectedTemplate
         then SelectedOption templateId
         else ClickableOption templateId (onChange templateId))
      templates.

(** What [ThemeSelector] hands to [Select]: the options as value and label,
    the selected value, and the change handler applied to the value of the
    event's target. *)
Record SelectProps (A : Type) : Type := mkSelectProps {
  select_options : list (string * string);
  select_selected : jsvalue;
  select_onChange : string → A
}.
Arguments mkSelectProps {A} _ _ _.
Arguments select_options {A} _.
Arguments select_selected {A} _.
Arguments select_onChange {A} _.

Definition ThemeSelector {A} (themes : option (list Theme))
    (selectedTheme : jsvalue) (onChange : string → string → A)
  : SelectProps A :=
  {| select_options :=
       match themes with
       | Some themes => map (λ theme, (theme_id theme, theme_id theme)) themes
       | None => []
       end;
     select_selected := selectedTheme;
     select_onChange := λ value, onChange "conferenceSeriesId" value |}.

(** [get(variable, "value") || get(variable, "validation.default")] for a
    descriptor overlaid with its value. *)
Definition selectedVariable (h : Heap) (variable : VariableDescriptor * jsvalue)
  : jsvalue :=
  if truthy variable.2 then variable.2
  else Lodash.get h (validation variable.1) "default".

(** The actions the page's handlers dispatch. *)
Definition onThemeChange (field value : string) : Action :=
  mkAction ActionTypes.UPDATE_THEME_ID (Some field) (VString value).

Definition onSelectionChange (value : string) : Action :=
  mkAction ActionTypes.UPDATE_SELECTION_ID None (VString value).

Definition onVariableChange (field : string) (value : jsvalue) : Action :=
  mkAction ActionTypes.UPDATE_VARIABLE (Some field) value.

(** The sidebar below the export button: the theme selector, the two
    component selectors, and for every overlaid variable its field and the
    value its selector shows. *)
Record Sidebar : Type := mkSidebar {
  sidebar_themes : SelectProps Action;
  sidebar_templates : list (SelectorItem Action);
  sidebar_components : list (SelectorItem Action);
  sidebar_variables : list (string * jsvalue)
}.

(** A query-string codec for one parameter, enough to follow two pushes. *)
Module DemoCodec.

Definition queryString_parse (s : string) : gmap string jsvalue :=
  if bool_decide (s = "?themeId=dark") then {[ "themeId" := VString "dark" ]}
  else ∅.

Definition queryString_stringify (h : Heap) (m : gmap string jsvalue) : string :=
  match m !! "themeId", m !! "selectionId" with
  | Some (VString t), Some (VString s) => "selectionId=" +:+ s +:+ "&themeId=" +:+ t
  | Some (VString t), _ => "themeId=" +:+ t
  | _, Some (VString s) => "selectionId=" +:+ s
  | _, _ => ""
  end.

End DemoCodec.

Section Designer.

(** The registries [import * as templates] and [import * as components]. *)
Variables templates components : gmap string Renderable.

(** The host's conversion of a value that is not a string to a string. *)
Variable host_toString : Heap → jsvalue → string.

(** [JSON.stringify] of an object; [None] when it throws (a cycle). *)
Variable JSON_stringify : Heap → jsvalue → option string.

(** [queryString.parse] and [queryString.stringify]. *)
Variable queryString_parse : string → gmap string jsvalue.
Variable queryString_stringify : Heap → gmap string jsvalue → string.

Local Open Scope js_scope.

Definition updateQuery (field : string) (value : jsvalue) : M unit :=
  λ w,
    let query :=
      queryString_stringify (heap w)
        (<[field := value]> (queryString_parse (location_search w))) in
    history_push ("?" +:+ query) w.

(** [{ ...v }] *)
Definition spread (v : jsvalue) : M loc :=
  λ w,
    let '(h, l) := alloc (heap w) (Object PlainObject (own_props (heap w) v)) in
    Ok (l, mkWorld h (location_search w) (history w)).

(** [set(object, path, value)] *)
Definition lodash_set (object : jsvalue) (path : string) (v : jsvalue) : M unit :=
  λ w, put_heap (Lodash.set (heap w) object path v) w.

(** [fromPairs(pairs)] *)
Definition lodash_fromPairs (pairs : list (string * jsvalue)) : M loc :=
  λ w,
    let '(h, l) := Lodash.fromPairs (heap w) pairs in
    Ok (l, mkWorld h (location_search w) (history w)).

(** [JSON.stringify(v)] *)
Definition stringify (v : jsvalue) : M string :=
  λ w, match JSON_stringify (heap w) v with
       | Some s => Ok (s, w)
       | None => Throw TypeError
       end.

(** The key a path argument stands for when it is not a string. *)
Definition toKey (field : option string) : string :=
  match field with
  | Some s => s
  | None => "undefined"
  end.

Definition assetDesignerReducer (state : DesignerState) (action : Action)
  : M DesignerState :=
  let field := field action in
  let value := value action in
  if strict_eq (type action) ActionTypes.UPDATE_SELECTION_ID then
    updateQuery "selectionId" value ;;;
    ret {| themeId := themeId state;
           selectionId := value;
           variables := variables state |}
  else if strict_eq (type action) ActionTypes.UPDATE_THEME_ID then
    updateQuery "themeId" value ;;;
    ret {| themeId := value;
           selectionId := selectionId state;
           variables := variables state |}
  else if strict_eq (type action) ActionTypes.UPDATE_VARIABLE then
    newVariables <- spread (VRef (variables state)) ;;
    lodash_set (VRef newVariables) (toKey field) value ;;;
    json <- stringify (VRef newVariables) ;;
    updateQuery "variables" (VString json) ;;;
    ret {| themeId := themeId state;
           selectionId := selectionId state;
           variables := newVariables |}
  else throw (Error "No matching reducer found!").

(** [templates[selectionId]], [components[selectionId]]: the key is the
    string the value converts to. *)
Definition toPropertyKey (h : Heap) (v : jsvalue) : string :=
  match v with
  | VString s => s
  | _ => host_toString h v
  end.

Definition getSelection (h : Heap) (selectionId : jsvalue) : option Renderable :=
  let key := toPropertyKey h selectionId in
  match templates !! key with
  | Some selection => Some selection
  | None => components !! key
  end.

(** The initialiser given to [useReducer]. *)
Definition init (initialState : gmap string jsvalue) : M DesignerState :=
  let selectionId := default VUndefined (initialState !! "selectionId") in
  h <- get_heap ;;
  match getSelection h selectionId with
  | None => throw TypeError
  | Some selection =>
      match declared_variables selection with
      | None => throw TypeError
      | Some vars =>
          variables <-
            lodash_fromPairs
              (map (λ d, (variable_id d, Lodash.get h (validation d) "default"))
                   vars) ;;
          ret {| themeId := VString "";
                 selectionId := selectionId;
                 variables := variables |}
      end
  end.

(** [themes.find(({ id }) => id === state.themeId) || themes[0]] *)
Definition resolveTheme (themes : list Theme) (state : DesignerState)
  : option Theme :=
  match List.find (λ t, strict_eq (VString (theme_id t)) (themeId state)) themes with
  | Some theme => Some theme
  | None => head themes
  end.

(** [getSelection(selectionId) || NoSelectionFound] *)
Definition resolveSelection (h : Heap) (selectionId : jsvalue) : Renderable :=
  default NoSelectionFound (getSelection h selectionId).

(** The body of the page after the state is available. *)
Definition page_view (h : Heap) (themes : list Theme) (state : DesignerState)
  : View :=
  let theme := resolveTheme themes state in
  let selection := resolveSelection h (selectionId state) in
  {| view_theme := theme;
     view_sidebar_background := from_option colors_background "" theme;
     view_selection := selection;
     view_variables :=
       match declared_variables selection with
       | Some vars =>
           map (λ variable,
                  (variable, heap_get h (variables state) (variable_id variable)))
               vars
       | None => []
       end;
     view_main_props :=
       {| props_variables :=
            delete "id" (delete "theme" (own_props h (VRef (variables state))));
          props_theme := theme;
          props_id := "asset-design-template-id" |} |}.

(** The page function.  [hook] is the state [useReducer] holds for the
    component: nothing before the first render that reaches the hook,
    which runs the initialiser.  The result is the hook's state and what
    is rendered, [None] for [null]. *)
Definition AssetDesignerPage (props : AssetDesignerPageProps)
    (hook : option DesignerState) : M (option DesignerState * option View) :=
  match themes props with
  | None => ret (hook, None)
  | Some themes =>
      state <-
        match hook with
        | Some state => ret state
        | None =>
            init (default {[ "selectionId" := VString "" ]} (initialState props))
        end ;;
      h <- get_heap ;;
      ret (Some state, Some (page_view h themes state))
  end.

(** Rendering the main element: the selection applied to its props. *)
Definition render_main (h : Heap) (view : View) : result Element :=
  render (view_selection view) h (view_main_props view).


(** The sidebar of the page for a state. *)
Definition page_sidebar (h : Heap) (themes : list Theme) (state : DesignerState)
  : Sidebar :=
  {| sidebar_themes := ThemeSelector (Some themes) (themeId state) onThemeChange;
     sidebar_templates :=
       ComponentSelector (Object_keys templates) (selectionId state)
                         onSelectionChange;
     sidebar_components :=
       ComponentSelector (Object_keys components) (selectionId state)
                         onSelectionChange;
     sidebar_variables :=
       map (λ variable, (variable_id variable.1, selectedVariable h variable))
           (view_variables (page_view h themes state)) |}.
(** ** Facts about the object store *)

Lemma heap_get_lookup (h : Heap) l k l' :
  isObject (heap_get h l k) = Some l' → heap_lookup h l k = Some (VRef l').
Proof.
  unfold heap_get. destruct (heap_lookup h l k) as [v|]; simpl; [|done].
  destruct v; simpl; congruence.
Qed.

Lemma heap_lookup_allocated (h : Heap) l k v :
  heap_lookup h l k = Some v → l < length h.
Proof.
  unfold heap_lookup. destruct (h !! l) as [o|] eqn:E; simpl; [|done].
  intros _. by eapply lookup_lt_Some.
Qed.

Lemma length_heap_assign (h : Heap) l k v :
  length (heap_assign h l k v) = length h.
Proof. apply length_alter. Qed.

Lemma heap_assign_other (h : Heap) l k v l' :
  l ≠ l' → heap_assign h l k v !! l' = h !! l'.
Proof. intros. unfold heap_assign. by rewrite list_lookup_alter_ne. Qed.

Lemma heap_lookup_assign_eq (h : Heap) l k v :
  l < length h → heap_lookup (heap_assign h l k v) l k = Some v.
Proof.
  intros Hl. unfold heap_lookup, heap_assign.
  rewrite list_lookup_alter_eq.
  destruct (lookup_lt_is_Some_2 h l Hl) as [o ->]. simpl.
  unfold obj_set; simpl. apply lookup_insert_eq.
Qed.

Lemma heap_lookup_assign_ne_key (h : Heap) l k v k' :
  k ≠ k' → heap_lookup (heap_assign h l k v) l k' = heap_lookup h l k'.
Proof.
  intros Hk. unfold heap_lookup, heap_assign.
  rewrite list_lookup_alter_eq.
  destruct (h !! l) as [o|]; simpl; [|done].
  unfold obj_set; simpl. by rewrite lookup_insert_ne.
Qed.

Lemma heap_assign_same (h : Heap) l k v :
  heap_lookup h l k = Some v → heap_assign h l k v = h.
Proof.
  intros Hv. apply list_eq. intros i. unfold heap_assign.
  destruct (decide (l = i)) as [<-|Hne]; [|by rewrite list_lookup_alter_ne].
  rewrite list_lookup_alter_eq. unfold heap_lookup in Hv.
  destruct (h !! l) as [[kd ps]|]; simpl in *; [|done].
  unfold obj_set. simpl. by rewrite insert_id.
Qed.

Lemma heap_assign_app (h : Heap) o l k v :
  l < length h → heap_assign (h ++ [o]) l k v = heap_assign h l k v ++ [o].
Proof. intros. unfold heap_assign. by rewrite alter_app_l. Qed.

Lemma heap_lookup_app (h : Heap) o l k :
  l < length h → heap_lookup (h ++ [o]) l k = heap_lookup h l k.
Proof. intros. unfold heap_lookup. by rewrite lookup_app_l. Qed.

Lemma heap_get_app (h : Heap) o l k :
  l < length h → heap_get (h ++ [o]) l k = heap_get h l k.
Proof. intros. unfold heap_get. by rewrite heap_lookup_app. Qed.

Lemma heap_lookup_fresh (h : Heap) o k :
  heap_lookup (h ++ [o]) (length h) k = props o !! k.
Proof. unfold heap_lookup. by rewrite list_lookup_middle. Qed.

(** [assignValue] skips the write exactly when it would change nothing. *)
Lemma assignValue_assign (h : Heap) l k v :
  Lodash.assignValue h l k v = heap_assign h l k v.
Proof.
  unfold Lodash.assignValue.
  destruct (heap_lookup h l k) as [u|] eqn:E; [|done].
  unfold strict_eq. case_bool_decide as Hu; [|done].
  subst u. symmetry. by apply heap_assign_same.
Qed.

(** ** Facts about paths *)

Lemma stringToPath_nonempty s : Lodash.stringToPath s ≠ [].
Proof.
  destruct s as [|c s]; simpl; [done|].
  destruct (Lodash.is_dot c); [done|].
  by destruct (Lodash.stringToPath s).
Qed.

Lemma castPath_nonempty h object s : Lodash.castPath h object s ≠ [].
Proof.
  unfold Lodash.castPath. destruct (Lodash.isKey h object s); [done|].
  apply stringToPath_nonempty.
Qed.

(** No segment of a split path contains a dot. *)
Lemma stringToPath_segments s :
  Forall (λ k, Lodash.reIsDeepProp k = false) (Lodash.stringToPath s).
Proof.
  induction s as [|c s IH]; simpl.
  - by repeat constructor.
  - destruct (Lodash.is_dot c) eqn:Hc.
    + by constructor.
    + destruct (Lodash.stringToPath s) as [|seg segs].
      * repeat constructor. simpl. by rewrite Hc.
      * inversion IH; subst. constructor; [|done]. simpl. by rewrite Hc.
Qed.

(** The first key of a path is the whole string or a string without dots. *)
Lemma castPath_head h object s key rest :
  Lodash.castPath h object s = key :: rest →
  key = s ∨ (Lodash.isKey h object s = false ∧ Lodash.reIsDeepProp key = false).
Proof.
  unfold Lodash.castPath. destruct (Lodash.isKey h object s) eqn:E.
  - intros [= <- <-]. by left.
  - intros Hp. right. split; [done|].
    pose proof (stringToPath_segments s) as Hs. rewrite Hp in Hs.
    by inversion Hs.
Qed.

(** ** Facts about [baseSet] *)

(** One step of the walk, with the writes of [assignValue] made explicit:
    an object found under the key is left where it is, a new one is
    appended to the store and linked. *)
Lemma baseSet_cons (h : Heap) l key rest v :
  l < length h →
  Lodash.baseSet h l (key :: rest) v =
  if Lodash.unsafe_key key then h
  else match rest with
       | [] => heap_assign h l key v
       | next :: _ =>
           match isObject (heap_get h l key) with
           | Some l' => Lodash.baseSet h l' rest v
           | None =>
               Lodash.baseSet
                 (heap_assign h l key (VRef (length h))
                  ++ [if Lodash.isIndex next then empty_array else empty_object])
                 (length h) rest v
           end
       end.
Proof.
  intros Hl. cbn [Lodash.baseSet]. destruct (Lodash.unsafe_key key); [done|].
  destruct rest as [|next rest]; [apply assignValue_assign|].
  destruct (isObject (heap_get h l key)) as [l'|] eqn:E.
  - rewrite assignValue_assign, heap_assign_same; [done|].
    by apply heap_get_lookup.
  - cbn [alloc]. by rewrite assignValue_assign, heap_assign_app.
Qed.

Lemma spine_cons (h : Heap) l key next rest :
  Lodash.spine h l (key :: next :: rest) =
  l :: match isObject (heap_get h l key) with
       | Some l' => Lodash.spine h l' (next :: rest)
       | None => []
       end.
Proof. reflexivity. Qed.

(** From an object without properties the walk only meets new objects. *)
Lemma spine_empty_object (h : Heap) l o path :
  h !! l = Some o → props o = ∅ → path ≠ [] → Lodash.spine h l path = [l].
Proof.
  intros Ho Hp Hne. destruct path as [|key [|next rest]]; [done|done|].
  rewrite spine_cons. unfold heap_get, heap_lookup. rewrite Ho. simpl.
  by rewrite Hp, lookup_empty.
Qed.

Lemma fresh_object_empty (next : string) :
  props (if Lodash.isIndex next then empty_array else empty_object) = ∅.
Proof. by destruct (Lodash.isIndex next). Qed.

Lemma baseSet_length path : ∀ (h : Heap) l v,
  Forall (λ x, x < length h) (Lodash.spine h l path) →
  length h ≤ length (Lodash.baseSet h l path v).
Proof.
  induction path as [|key rest IH]; intros h l v Hal; [done|].
  assert (l < length h) as Hl by (by inversion Hal).
  rewrite baseSet_cons by done. destruct (Lodash.unsafe_key key); [done|].
  destruct rest as [|next rest]; [by rewrite length_heap_assign|].
  rewrite spine_cons in Hal. apply Forall_cons in Hal as [_ Hal].
  destruct (isObject (heap_get h l key)) as [l'|]; [by apply IH|].
  etrans; [|apply IH].
  - rewrite length_app, length_heap_assign. lia.
  - erewrite spine_empty_object; [| |apply fresh_object_empty|done].
    + repeat constructor. rewrite length_app, length_heap_assign. simpl. lia.
    + apply list_lookup_middle. by rewrite length_heap_assign.
Qed.

(** Frame: an object that is not on the spine is not written. *)
Lemma baseSet_frame path : ∀ (h : Heap) l v l0,
  Forall (λ x, x < length h) (Lodash.spine h l path) →
  l0 < length h →
  l0 ∉ Lodash.spine h l path →
  Lodash.baseSet h l path v !! l0 = h !! l0.
Proof.
  induction path as [|key rest IH]; intros h l v l0 Hal Hl0 Hnot; [done|].
  assert (l < length h) as Hl by (by inversion Hal).
  assert (l ≠ l0) as Hne.
  { intros ->. apply Hnot. destruct rest; simpl; apply list_elem_of_here. }
  rewrite baseSet_cons by done. destruct (Lodash.unsafe_key key); [done|].
  destruct rest as [|next rest]; [by apply heap_assign_other|].
  rewrite spine_cons in Hal, Hnot. apply Forall_cons in Hal as [_ Hal].
  apply not_elem_of_cons in Hnot as [_ Hnot].
  destruct (isObject (heap_get h l key)) as [l'|]; [by apply IH|].
  rewrite IH.
  - rewrite lookup_app_l by (by rewrite length_heap_assign).
    by apply heap_assign_other.
  - erewrite spine_empty_object; [| |apply fresh_object_empty|done].
    + repeat constructor. rewrite length_app, length_heap_assign. simpl. lia.
    + apply list_lookup_middle. by rewrite length_heap_assign.
  - rewrite length_app, length_heap_assign. lia.
  - erewrite spine_empty_object; [| |apply fresh_object_empty|done].
    + apply not_elem_of_cons. split; [lia|apply not_elem_of_nil].
    + apply list_lookup_middle. by rewrite length_heap_assign.
Qed.

(** In the object the walk starts from, only the first key is written,
    provided the walk does not come back to it. *)
Lemma baseSet_other_key (h : Heap) l key rest v k :
  Forall (λ x, x < length h) (Lodash.spine h l (key :: rest)) →
  l ∉ tail (Lodash.spine h l (key :: rest)) →
  k ≠ key →
  heap_lookup (Lodash.baseSet h l (key :: rest) v) l k = heap_lookup h l k.
Proof.
  intros Hal Hnot Hk.
  assert (l < length h) as Hl by (by inversion Hal).
  rewrite baseSet_cons by done. destruct (Lodash.unsafe_key key); [done|].
  destruct rest as [|next rest]; [by apply heap_lookup_assign_ne_key|].
  rewrite spine_cons in Hal, Hnot. apply Forall_cons in Hal as [_ Hal].
  cbn [tail] in Hnot. unfold heap_lookup at 1.
  destruct (isObject (heap_get h l key)) as [l'|].
  - by rewrite baseSet_frame.
  - rewrite baseSet_frame.
    + rewrite lookup_app_l by (by rewrite length_heap_assign).
      by apply heap_lookup_assign_ne_key.
    + erewrite spine_empty_object; [| |apply fresh_object_empty|done].
      * repeat constructor. rewrite length_app, length_heap_assign. simpl. lia.
      * apply list_lookup_middle. by rewrite length_heap_assign.
    + rewrite length_app, length_heap_assign. lia.
    + erewrite spine_empty_object; [| |apply fresh_object_empty|done].
      * apply not_elem_of_cons. split; [lia|apply not_elem_of_nil].
      * apply list_lookup_middle. by rewrite length_heap_assign.
Qed.

(** Reading the path back after the walk gives the value written, when the
    walk meets no object twice and no refused key. *)
Lemma baseGet_baseSet path : ∀ (h : Heap) l v,
  path ≠ [] →
  Forall (λ key, Lodash.unsafe_key key = false) path →
  Forall (λ x, x < length h) (Lodash.spine h l path) →
  NoDup (Lodash.spine h l path) →
  Lodash.baseGet_from (Lodash.baseSet h l path v) (VRef l) path = v.
Proof.
  induction path as [|key rest IH]; intros h l v Hne Hsafe Hal Hnd; [done|].
  assert (l < length h) as Hl by (by inversion Hal).
  apply Forall_cons in Hsafe as [Hkey Hsafe].
  rewrite baseSet_cons by done. rewrite Hkey.
  destruct rest as [|next rest].
  - simpl. unfold heap_get. by rewrite heap_lookup_assign_eq.
  - rewrite spine_cons in Hal, Hnd. apply Forall_cons in Hal as [_ Hal].
    apply NoDup_cons in Hnd as [Hnot Hnd].
    cbn [Lodash.baseGet_from member].
    destruct (isObject (heap_get h l key)) as [l'|] eqn:E.
    + assert (heap_get (Lodash.baseSet h l' (next :: rest) v) l key = VRef l')
        as ->.
      { unfold heap_get, heap_lookup. rewrite baseSet_frame by done.
        apply heap_get_lookup in E. unfold heap_lookup in E. by rewrite E. }
      by apply IH.
    + set (o := if Lodash.isIndex next then empty_array else empty_object).
      set (h2 := heap_assign h l key (VRef (length h)) ++ [o]).
      assert (h2 !! length h = Some o) as Ho.
      { apply list_lookup_middle. by rewrite length_heap_assign. }
      assert (Lodash.spine h2 (length h) (next :: rest) = [length h]) as Hsp.
      { eapply spine_empty_object; [done|apply fresh_object_empty|done]. }
      assert (length h2 = S (length h)) as Hlen.
      { unfold h2. rewrite length_app, length_heap_assign. simpl. lia. }
      assert (heap_get (Lodash.baseSet h2 (length h) (next :: rest) v) l key
              = VRef (length h)) as ->.
      { unfold heap_get, heap_lookup. rewrite baseSet_frame.
        - unfold h2. rewrite lookup_app_l by (by rewrite length_heap_assign).
          fold (heap_lookup (heap_assign h l key (VRef (length h))) l key).
          by rewrite heap_lookup_assign_eq.
        - rewrite Hsp. repeat constructor. lia.
        - lia.
        - rewrite Hsp. apply not_elem_of_cons. split; [lia|apply not_elem_of_nil]. }
      apply IH; [done|done| |].
      * rewrite Hsp. repeat constructor. lia.
      * rewrite Hsp. apply NoDup_singleton.
Qed.

Lemma heap_assign_fresh (h : Heap) o k v :
  heap_assign (h ++ [o]) (length h) k v = h ++ [obj_set k v o].
Proof.
  unfold heap_assign. rewrite alter_app_r_alt by lia.
  by rewrite Nat.sub_diag.
Qed.

Lemma spine_app path : ∀ (h : Heap) o l,
  Forall (λ x, x < length h) (Lodash.spine h l path) →
  Lodash.spine (h ++ [o]) l path = Lodash.spine h l path.
Proof.
  induction path as [|key rest IH]; intros h o l Hal; [done|].
  destruct rest as [|next rest]; [done|].
  rewrite !spine_cons. rewrite spine_cons in Hal.
  apply Forall_cons in Hal as [Hl Hal]. rewrite heap_get_app by done.
  destruct (isObject (heap_get h l key)); [|done]. by rewrite IH.
Qed.

(** ** The copy made by the reducer *)

Section copy.
Variables (h : Heap) (vars : loc).

Let copy : object := Object PlainObject (own_props h (VRef vars)).

Lemma copy_lookup k : heap_lookup (h ++ [copy]) (length h) k = heap_lookup h vars k.
Proof.
  rewrite heap_lookup_fresh. unfold copy, heap_lookup. simpl.
  by destruct (h !! vars).
Qed.

Lemma copy_castPath s :
  Lodash.castPath (h ++ [copy]) (VRef (length h)) s = Lodash.castPath h (VRef vars) s.
Proof.
  unfold Lodash.castPath, Lodash.isKey. simpl. by rewrite copy_lookup.
Qed.

Lemma copy_spine path :
  path ≠ [] →
  Forall (λ x, x < length h) (Lodash.spine h vars path) →
  Lodash.spine (h ++ [copy]) (length h) path
  = length h :: tail (Lodash.spine h vars path).
Proof.
  intros Hne Hal. destruct path as [|key [|next rest]]; [done|done|].
  rewrite !spine_cons. rewrite spine_cons in Hal.
  apply Forall_cons in Hal as [Hl Hal]. cbn [tail]. f_equal.
  unfold heap_get at 1. rewrite copy_lookup. fold (heap_get h vars key).
  destruct (isObject (heap_get h vars key)); [|done]. by apply spine_app.
Qed.

Lemma write_variable_eq s v :
  write_variable h vars s v
  = (Lodash.baseSet (h ++ [copy]) (length h) (Lodash.castPath h (VRef vars) s) v,
     length h).
Proof.
  unfold write_variable. cbn [alloc]. unfold Lodash.set.
  fold copy. by rewrite copy_castPath.
Qed.
End copy.

(** ** The write of [UPDATE_VARIABLE] on the store *)

Lemma copy_spine_allocated (h : Heap) vars path :
  path ≠ [] →
  Forall (λ x, x < length h) (Lodash.spine h vars path) →
  Forall (λ x, x < length (h ++ [Object PlainObject (own_props h (VRef vars))]))
         (Lodash.spine (h ++ [Object PlainObject (own_props h (VRef vars))])
                       (length h) path).
Proof.
  intros Hne Hal. rewrite copy_spine, length_app by done. simpl.
  constructor; [lia|]. apply Forall_tail.
  eapply Forall_impl; [exact Hal|]. simpl. lia.
Qed.

Lemma copy_not_in_tail (h : Heap) vars path :
  Forall (λ x, x < length h) (Lodash.spine h vars path) →
  length h ∉ tail (Lodash.spine h vars path).
Proof.
  intros Hal Hin. apply Forall_tail in Hal.
  rewrite Forall_forall in Hal. specialize (Hal _ Hin). simpl in Hal. lia.
Qed.

(** The copy is a new object. *)
Lemma write_variable_new (h : Heap) vars s v :
  (write_variable h vars s v).2 = length h.
Proof. by rewrite write_variable_eq. Qed.

(** Entries of the copy under keys other than the first key of the path
    are those of the original. *)
Lemma write_variable_other_key (h : Heap) vars s v k :
  Forall (λ x, x < length h)
         (Lodash.spine h vars (Lodash.castPath h (VRef vars) s)) →
  head (Lodash.castPath h (VRef vars) s) ≠ Some k →
  heap_lookup (write_variable h vars s v).1 (length h) k = heap_lookup h vars k.
Proof.
  intros Hal Hk. rewrite write_variable_eq. cbn [fst].
  pose proof (castPath_nonempty h (VRef vars) s) as Hne.
  pose proof (copy_spine_allocated h vars _ Hne Hal) as Hal'.
  pose proof (copy_spine h vars _ Hne Hal) as Hsp.
  pose proof (copy_not_in_tail h vars _ Hal) as Hnot.
  destruct (Lodash.castPath h (VRef vars) s) as [|key rest]; [done|].
  rewrite baseSet_other_key.
  - apply copy_lookup.
  - done.
  - by rewrite Hsp.
  - intros ->. by apply Hk.
Qed.

(** Objects of the store other than the nested objects on the path are
    left as they were. *)
Lemma write_variable_frame (h : Heap) vars s v l0 :
  Forall (λ x, x < length h)
         (Lodash.spine h vars (Lodash.castPath h (VRef vars) s)) →
  l0 < length h →
  l0 ∉ tail (Lodash.spine h vars (Lodash.castPath h (VRef vars) s)) →
  (write_variable h vars s v).1 !! l0 = h !! l0.
Proof.
  intros Hal Hl0 Hnot. rewrite write_variable_eq. cbn [fst].
  pose proof (castPath_nonempty h (VRef vars) s) as Hne.
  rewrite baseSet_frame.
  - by apply lookup_app_l.
  - by apply copy_spine_allocated.
  - rewrite length_app. lia.
  - rewrite copy_spine by done. apply not_elem_of_cons. split; [lia|done].
Qed.

Lemma write_variable_length (h : Heap) vars s v :
  Forall (λ x, x < length h)
         (Lodash.spine h vars (Lodash.castPath h (VRef vars) s)) →
  length h < length (write_variable h vars s v).1.
Proof.
  intros Hal. rewrite write_variable_eq. cbn [fst].
  pose proof (castPath_nonempty h (VRef vars) s) as Hne.
  pose proof (baseSet_length _ _ (length h) v
                (copy_spine_allocated h vars _ Hne Hal)) as Hle.
  rewrite length_app in Hle. cbn [length] in Hle. lia.
Qed.

(** After the write the string stands for the same path in the copy. *)
Lemma write_variable_castPath (h : Heap) vars s v :
  Forall (λ x, x < length h)
         (Lodash.spine h vars (Lodash.castPath h (VRef vars) s)) →
  Forall (λ key, Lodash.unsafe_key key = false)
         (Lodash.castPath h (VRef vars) s) →
  Lodash.castPath (write_variable h vars s v).1 (VRef (length h)) s
  = Lodash.castPath h (VRef vars) s.
Proof.
  intros Hal Hsafe.
  destruct (Lodash.castPath h (VRef vars) s) as [|key rest] eqn:Hp.
  { by destruct (castPath_nonempty h (VRef vars) s). }
  rewrite <- Hp in Hal.
  unfold Lodash.castPath at 1. unfold Lodash.isKey. cbn [key_in].
  destruct (castPath_head _ _ _ _ _ Hp) as [->|[Hk Hdeep]].
  - (* the string is one key, and is a key of the copy afterwards *)
    assert (rest = []) as ->.
    { revert Hp. unfold Lodash.castPath.
      destruct (Lodash.isKey h (VRef vars) s) eqn:E; [congruence|].
      intros Hp. pose proof (stringToPath_segments s) as Hseg.
      rewrite Hp in Hseg. apply Forall_cons in Hseg as [Hd _].
      unfold Lodash.isKey in E. by rewrite Hd in E. }
    assert (is_Some (heap_lookup (write_variable h vars s v).1 (length h) s))
      as Hs.
    { rewrite write_variable_eq. cbn [fst]. rewrite Hp.
      apply Forall_cons in Hsafe as [Hkey _].
      rewrite baseSet_cons by (rewrite length_app; simpl; lia).
      rewrite Hkey, heap_lookup_assign_eq by (rewrite length_app; simpl; lia).
      by eexists. }
    rewrite bool_decide_true by done. by rewrite orb_true_r.
  - (* the string is split; it is no key of the copy, before or after *)
    assert (key ≠ s) as Hks.
    { intros ->. unfold Lodash.isKey in Hk. by rewrite Hdeep in Hk. }
    rewrite write_variable_other_key; [|done|rewrite Hp; simpl; congruence].
    fold (key_in h (VRef vars) s). fold (Lodash.isKey h (VRef vars) s).
    rewrite Hk. revert Hp. unfold Lodash.castPath. by rewrite Hk.
Qed.

(** Reading the path back from the copy gives the value written. *)
Lemma write_variable_get (h : Heap) vars s v :
  Forall (λ x, x < length h)
         (Lodash.spine h vars (Lodash.castPath h (VRef vars) s)) →
  Forall (λ key, Lodash.unsafe_key key = false)
         (Lodash.castPath h (VRef vars) s) →
  NoDup (Lodash.spine h vars (Lodash.castPath h (VRef vars) s)) →
  Lodash.get (write_variable h vars s v).1 (VRef (length h)) s = v.
Proof.
  intros Hal Hsafe Hnd.
  unfold Lodash.get, Lodash.baseGet. rewrite write_variable_castPath by done.
  pose proof (castPath_nonempty h (VRef vars) s) as Hne.
  rewrite write_variable_eq. cbn [fst].
  pose proof (copy_spine_allocated h vars _ Hne Hal) as Hal'.
  pose proof (copy_spine h vars _ Hne Hal) as Hsp.
  pose proof (copy_not_in_tail h vars _ Hal) as Hnot.
  destruct (Lodash.castPath h (VRef vars) s) as [|key rest] eqn:Hp; [done|].
  apply baseGet_baseSet; [done|done|done|].
  rewrite Hsp. apply NoDup_cons. split; [done|].
  destruct (Lodash.spine h vars (key :: rest)); [constructor|].
  by apply NoDup_cons in Hnd as [_ ?].
Qed.

(** ** The reducer, case by case *)

Lemma updateQuery_eq (field : string) (value : jsvalue) (w : World) :
  updateQuery field value w
  = let url :=
      "?" +:+ queryString_stringify (heap w)
                (<[field := value]> (queryString_parse (location_search w))) in
    Ok (tt, mkWorld (heap w) (if bool_decide (url = "?") then "" else url)
              (history w ++ [url])).
Proof. reflexivity. Qed.

Lemma reducer_update_selection_id state action w :
  type action = ActionTypes.UPDATE_SELECTION_ID →
  assetDesignerReducer state action w
  = match updateQuery "selectionId" (value action) w with
    | Ok (_, w') =>
        Ok (mkState (themeId state) (value action) (variables state), w')
    | Throw e => Throw e
    end.
Proof. intros Ht. unfold assetDesignerReducer. by rewrite Ht. Qed.

Lemma reducer_update_theme_id state action w :
  type action = ActionTypes.UPDATE_THEME_ID →
  assetDesignerReducer state action w
  = match updateQuery "themeId" (value action) w with
    | Ok (_, w') =>
        Ok (mkState (value action) (selectionId state) (variables state), w')
    | Throw e => Throw e
    end.
Proof. intros Ht. unfold assetDesignerReducer. by rewrite Ht. Qed.

Lemma reducer_update_variable state action w :
  type action = ActionTypes.UPDATE_VARIABLE →
  assetDesignerReducer state action w
  = let written :=
      write_variable (heap w) (variables state) (toKey (field action))
                     (value action) in
    match JSON_stringify written.1 (VRef written.2) with
    | Some json =>
        match updateQuery "variables" (VString json)
                (mkWorld written.1 (location_search w) (history w)) with
        | Ok (_, w') =>
            Ok (mkState (themeId state) (selectionId state) written.2, w')
        | Throw e => Throw e
        end
    | None => Throw TypeError
    end.
Proof.
  intros Ht. unfold assetDesignerReducer. rewrite Ht.
  change (strict_eq ActionTypes.UPDATE_VARIABLE ActionTypes.UPDATE_SELECTION_ID)
    with false.
  change (strict_eq ActionTypes.UPDATE_VARIABLE ActionTypes.UPDATE_THEME_ID)
    with false.
  change (strict_eq ActionTypes.UPDATE_VARIABLE ActionTypes.UPDATE_VARIABLE)
    with true.
  cbv beta iota zeta.
  unfold bind at 1. unfold spread, write_variable. cbn [alloc fst snd heap].
  unfold bind at 1. unfold lodash_set at 1, put_heap.
  cbn [heap location_search history].
  unfold bind at 1. unfold stringify at 1. cbn [heap].
  destruct (JSON_stringify _ _) as [json|]; [|done].
  unfold bind at 1. rewrite updateQuery_eq. reflexivity.
Qed.


(** ** The reducer: what a dispatch changes *)








(** C4.  [UPDATE_VARIABLE] with field ["a.b"] and value 5 on a state whose
    variables object is empty returns a state whose variables object is
    [{ a: { b: 5 } }]: two new objects, the first linking to the second.  In
    general, for a field written with dots whose path meets no object twice
    and no key that [set] refuses, reading the field back from the returned
    state's variables with [get] gives the value of the action. *)
Theorem update_variable_writes_path :
  (∀ (state : DesignerState) (w : World),
     own_props (heap w) (VRef (variables state)) = ∅ →
     is_Some
       (JSON_stringify
          (write_variable (heap w) (variables state) "a.b" (VNumber 5)).1
          (VRef (length (heap w)))) →
     ∃ w',
       assetDesignerReducer state
         (mkAction ActionTypes.UPDATE_VARIABLE (Some "a.b") (VNumber 5)) w
       = Ok (mkState (themeId state) (selectionId state) (length (heap w)), w')
       ∧ heap w'
         = heap w ++ [Object PlainObject {[ "a" := VRef (S (length (heap w))) ]};
                      Object PlainObject {[ "b" := VNumber 5 ]}])
  ∧ (∀ (state : DesignerState) (action : Action) (w : World),
       type action = ActionTypes.UPDATE_VARIABLE →
       let path :=
         Lodash.castPath (heap w) (VRef (variables state)) (toKey (field action)) in
       let written :=
         write_variable (heap w) (variables state) (toKey (field action))
                        (value action) in
       Lodash.dotted (toKey (field action)) = true →
       Forall (λ key, Lodash.unsafe_key key = false) path →
       Forall (λ l, l < length (heap w))
              (Lodash.spine (heap w) (variables state) path) →
       NoDup (Lodash.spine (heap w) (variables state) path) →
       is_Some (JSON_stringify written.1 (VRef written.2)) →
       ∃ state' w',
         assetDesignerReducer state action w = Ok (state', w')
         ∧ Lodash.get (heap w') (VRef (variables state')) (toKey (field action))
           = value action).
Proof.
  split.
  - intros state w Hempty [json Hjson].
    rewrite reducer_update_variable by done. cbv zeta.
    cbn [field value toKey]. rewrite write_variable_new, Hjson, updateQuery_eq.
    cbn [heap location_search history].
    eexists. split; [reflexivity|]. cbn [heap].
    rewrite write_variable_eq. cbn [fst]. rewrite Hempty.
    assert (Lodash.castPath (heap w) (VRef (variables state)) "a.b" = ["a"; "b"])
      as ->.
    { unfold Lodash.castPath, Lodash.isKey. cbn [key_in].
      rewrite bool_decide_false; [done|].
      intros [v Hv]. unfold heap_lookup in Hv. unfold own_props in Hempty.
      destruct (heap w !! variables state) as [o|]; simpl in *; [|done].
      by rewrite Hempty, lookup_empty in Hv. }
    rewrite baseSet_cons by (rewrite length_app; simpl; lia).
    change (Lodash.unsafe_key "a") with false. cbv iota.
    unfold heap_get. rewrite heap_lookup_fresh. cbn [props].
    rewrite lookup_empty. cbn [default isObject].
    change (Lodash.isIndex "b") with false. cbv iota.
    rewrite heap_assign_fresh.
    rewrite baseSet_cons by (rewrite !length_app; simpl; lia).
    change (Lodash.unsafe_key "b") with false. cbv iota.
    set (o1 := obj_set "a" _ _).
    replace (length (heap w ++ [Object PlainObject ∅]))
      with (length (heap w ++ [o1])) by (by rewrite !length_app).
    rewrite heap_assign_fresh, <- app_assoc. cbn [app]. unfold o1.
    rewrite length_app. cbn [length]. rewrite Nat.add_1_r.
    unfold obj_set, empty_object. cbn [kind props].
    by rewrite !insert_empty.
  - intros state action w Ht path written _ Hsafe Hal Hnd [json Hjson].
    rewrite reducer_update_variable by done. cbv zeta. fold written.
    rewrite Hjson, updateQuery_eq. cbn [heap location_search history].
    eexists _, _. split; [reflexivity|]. cbn [heap variables].
    assert (written.2 = length (heap w)) as -> by apply write_variable_new.
    by apply write_variable_get.
Qed.

(** C7.  An action whose type is none of the three kinds makes the reducer
    throw, whatever the state and the world. *)
Theorem reducer_unknown_action_throws (state : DesignerState) (action : Action)
    (w : World) :
  type action ≠ ActionTypes.UPDATE_SELECTION_ID →
  type action ≠ ActionTypes.UPDATE_THEME_ID →
  type action ≠ ActionTypes.UPDATE_VARIABLE →
  assetDesignerReducer state action w = Throw (Error "No matching reducer found!").
Proof.
  intros H0 H1 H2. unfold assetDesignerReducer, strict_eq.
  by rewrite !bool_decide_false.
Qed.

(** C8.  [updateQuery] pushes the query made of the parameters parsed from
    the current location with the given field set to the given value: the
    field holds the value, every other parameter is what it was, and the
    store is untouched.  For a variable update the value pushed under
    ["variables"] is the serialisation of the whole new variables object. *)
Theorem updateQuery_merges_field :
  (∀ (field : string) (value : jsvalue) (w : World),
     ∃ merged w',
       updateQuery field value w = Ok (tt, w')
       ∧ history w' = history w ++ ["?" +:+ queryString_stringify (heap w) merged]
       ∧ heap w' = heap w
       ∧ merged !! field = Some value
       ∧ ∀ k, k ≠ field →
              merged !! k = queryString_parse (location_search w) !! k)
  ∧ (∀ (state : DesignerState) (action : Action) (w : World) (json : string),
       type action = ActionTypes.UPDATE_VARIABLE →
       let written :=
         write_variable (heap w) (variables state) (toKey (field action))
                        (value action) in
       JSON_stringify written.1 (VRef written.2) = Some json →
       ∃ state' w' merged,
         assetDesignerReducer state action w = Ok (state', w')
         ∧ JSON_stringify (heap w') (VRef (variables state')) = Some json
         ∧ history w'
           = history w ++ ["?" +:+ queryString_stringify (heap w') merged]
         ∧ merged !! "variables" = Some (VString json)
         ∧ ∀ k, k ≠ "variables" →
                merged !! k = queryString_parse (location_search w) !! k).
Proof.
  split.
  - intros field value w. rewrite updateQuery_eq. cbv zeta.
    eexists _, _. split; [reflexivity|]. cbn [heap history].
    split; [reflexivity|]. split; [done|]. split.
    + apply lookup_insert_eq.
    + intros k Hk. by apply lookup_insert_ne.
  - intros state action w json Ht written Hjson.
    rewrite reducer_update_variable by done. cbv zeta. fold written.
    rewrite Hjson, updateQuery_eq. cbv zeta.
    cbn [heap location_search history].
    eexists _, _, _. split; [reflexivity|]. cbn [heap history variables].
    split; [done|]. split; [reflexivity|]. split.
    + apply lookup_insert_eq.
    + intros k Hk. by apply lookup_insert_ne.
Qed.

(** ** The page: initial state, theme and selection *)

Lemma fromPairs_not_in (pairs : list (string * jsvalue)) :
  ∀ (m : gmap string jsvalue) k,
  k ∉ pairs.*1 →
  foldl (λ m kv, <[kv.1 := kv.2]> m) m pairs !! k = m !! k.
Proof.
  induction pairs as [|[k' v'] pairs IH]; intros m k Hk; [done|].
  rewrite fmap_cons in Hk. apply not_elem_of_cons in Hk as [Hne Hk].
  cbn [foldl]. rewrite IH by done. by apply lookup_insert_ne.
Qed.

(** With distinct keys, [fromPairs] holds every pair. *)
Lemma fromPairs_lookup (pairs : list (string * jsvalue)) :
  ∀ (m : gmap string jsvalue) k v,
  NoDup pairs.*1 →
  (k, v) ∈ pairs →
  foldl (λ m kv, <[kv.1 := kv.2]> m) m pairs !! k = Some v.
Proof.
  induction pairs as [|[k' v'] pairs IH]; intros m k v Hnd Hin.
  - by apply elem_of_nil in Hin.
  - rewrite fmap_cons in Hnd. apply NoDup_cons in Hnd as [Hk' Hnd].
    cbn [foldl]. apply elem_of_cons in Hin as [[= -> ->]|Hin].
    + rewrite fromPairs_not_in by done. apply lookup_insert_eq.
    + by apply IH.
Qed.

Lemma get_default (h : Heap) (l : loc) :
  Lodash.get h (VRef l) "default" = heap_get h l "default".
Proof. reflexivity. Qed.

Lemma init_eq (initialState : gmap string jsvalue) (w : World) :
  init initialState w
  = let selectionId := default VUndefined (initialState !! "selectionId") in
    match getSelection (heap w) selectionId with
    | None => Throw TypeError
    | Some selection =>
        match declared_variables selection with
        | None => Throw TypeError
        | Some vars =>
            Ok (mkState (VString "") selectionId (length (heap w)),
                mkWorld
                  (heap w ++
                   [Object PlainObject
                      (foldl (λ m kv, <[kv.1 := kv.2]> m) ∅
                         (map (λ d, (variable_id d,
                                     Lodash.get (heap w) (validation d) "default"))
                              vars))])
                  (location_search w) (history w))
        end
    end.
Proof.
  unfold init, bind, get_heap. cbv zeta.
  destruct (getSelection _ _) as [selection|]; [|done].
  by destruct (declared_variables selection).
Qed.

Lemma page_mount_eq (props : AssetDesignerPageProps) (ts : list Theme) (w : World) :
  themes props = Some ts →
  AssetDesignerPage props None w
  = match init (default {[ "selectionId" := VString "" ]} (initialState props)) w with
    | Ok (state, w') => Ok ((Some state, Some (page_view (heap w') ts state)), w')
    | Throw e => Throw e
    end.
Proof.
  intros Ht. unfold AssetDesignerPage. rewrite Ht. unfold bind at 1.
  by destruct (init _ w) as [[state w']|].
Qed.

Lemma page_update_eq (props : AssetDesignerPageProps) (ts : list Theme)
    (state : DesignerState) (w : World) :
  themes props = Some ts →
  AssetDesignerPage props (Some state) w
  = Ok ((Some state, Some (page_view (heap w) ts state)), w).
Proof. intros Ht. unfold AssetDesignerPage. by rewrite Ht. Qed.

(** C2.  [getSelection] answers from the template registry when the id is
    there and from the component registry otherwise; for an id in neither
    it answers undefined, the page resolves the selection to the
    placeholder, and rendering the placeholder returns its fragment for all
    props. *)
Theorem getSelection_falls_back_to_placeholder (h : Heap) (sid : jsvalue) :
  let key := toPropertyKey h sid in
  (∀ selection, templates !! key = Some selection →
                getSelection h sid = Some selection)
  ∧ (templates !! key = None → getSelection h sid = components !! key)
  ∧ (templates !! key = None → components !! key = None →
     getSelection h sid = None
     ∧ resolveSelection h sid = NoSelectionFound
     ∧ ∀ ts state,
         selectionId state = sid →
         view_selection (page_view h ts state) = NoSelectionFound
         ∧ render_main h (page_view h ts state)
           = Ok (Fragment [Text "No selection found!"]))
  ∧ (∀ h' props,
       render NoSelectionFound h' props = Ok (Fragment [Text "No selection found!"])).
Proof.
  intros key. split; [|split; [|split]].
  - intros selection Ht. unfold getSelection. fold key. by rewrite Ht.
  - intros Ht. unfold getSelection. fold key. by rewrite Ht.
  - intros Ht Hc.
    assert (getSelection h sid = None) as Hg.
    { unfold getSelection. fold key. by rewrite Ht. }
    split; [done|]. unfold resolveSelection. rewrite Hg. split; [done|].
    intros ts state Hs. unfold render_main, page_view, resolveSelection.
    cbn [view_selection view_main_props]. by rewrite Hs, Hg.
  - done.
Qed.

(** C3 (as amended).  On the first render the state is made from the
    [selectionId] of the [initialState] prop alone: [themeId] starts as the
    empty string and the variables as the selection's declared defaults.
    Neither the location's query nor any other entry of [initialState] is
    read: two loads that agree on [selectionId] and on the store produce
    the same state and the same store. *)
Theorem initial_state_reads_selectionId_only :
  (∀ (initialState : gmap string jsvalue) (w : World) selection vars,
     getSelection (heap w) (default VUndefined (initialState !! "selectionId"))
     = Some selection →
     declared_variables selection = Some vars →
     ∃ state w',
       init initialState w = Ok (state, w')
       ∧ themeId state = VString ""
       ∧ selectionId state = default VUndefined (initialState !! "selectionId")
       ∧ heap w' !! variables state
         = Some (Object PlainObject
                   (foldl (λ m kv, <[kv.1 := kv.2]> m) ∅
                      (map (λ d, (variable_id d,
                                  Lodash.get (heap w) (validation d) "default"))
                           vars))))
  ∧ (∀ (i1 i2 : gmap string jsvalue) (w1 w2 : World),
       i1 !! "selectionId" = i2 !! "selectionId" →
       heap w1 = heap w2 →
       match init i1 w1, init i2 w2 with
       | Ok (s1, w1'), Ok (s2, w2') => s1 = s2 ∧ heap w1' = heap w2'
       | Throw e1, Throw e2 => e1 = e2
       | _, _ => False
       end).
Proof.
  split.
  - intros initialState w selection vars Hsel Hvars.
    rewrite init_eq. cbv zeta. rewrite Hsel, Hvars.
    eexists _, _. split; [reflexivity|]. cbn [themeId selectionId variables heap].
    split; [done|]. split; [done|]. apply list_lookup_middle. done.
  - intros i1 i2 w1 w2 Hsel Hheap. rewrite !init_eq. cbv zeta.
    rewrite Hsel, Hheap.
    destruct (getSelection _ _) as [selection|]; [|done].
    by destruct (declared_variables selection).
Qed.

(** C5.  For a selection whose variable ids are distinct, the initial
    state's variables hold, under the id of every declared variable, that
    variable's [validation.default]; so a variable ["color"] whose
    validation declares the default ["blue"] is seeded with ["blue"]. *)
Theorem initial_state_seeds_defaults (props : AssetDesignerPageProps)
    (ts : list Theme) (w : World) (selection : Renderable)
    (vars : list VariableDescriptor) (d : VariableDescriptor) :
  let initial := default {[ "selectionId" := VString "" ]} (initialState props) in
  themes props = Some ts →
  getSelection (heap w) (default VUndefined (initial !! "selectionId"))
  = Some selection →
  declared_variables selection = Some vars →
  NoDup (variable_id <$> vars) →
  d ∈ vars →
  ∃ state view w',
    AssetDesignerPage props None w = Ok ((Some state, Some view), w')
    ∧ heap_lookup (heap w') (variables state) (variable_id d)
      = Some (Lodash.get (heap w) (validation d) "default")
    ∧ (∀ l, validation d = VRef l →
            heap_get (heap w') (variables state) (variable_id d)
            = heap_get (heap w) l "default")
    ∧ (∀ l, variable_id d = "color" →
            validation d = VRef l →
            heap_get (heap w) l "default" = VString "blue" →
            heap_get (heap w') (variables state) "color" = VString "blue").
Proof.
  intros initial Hts Hsel Hvars Hnd Hd.
  rewrite (page_mount_eq props ts) by done. fold initial.
  rewrite init_eq. cbv zeta. rewrite Hsel, Hvars.
  eexists _, _, _. split; [reflexivity|]. cbn [variables heap].
  assert (heap_lookup
            (heap w ++
             [Object PlainObject
                (foldl (λ m kv, <[kv.1 := kv.2]> m) ∅
                   (map (λ d, (variable_id d,
                               Lodash.get (heap w) (validation d) "default"))
                        vars))])
            (length (heap w)) (variable_id d)
          = Some (Lodash.get (heap w) (validation d) "default")) as Hseed.
  { rewrite heap_lookup_fresh. cbn [JS.props]. apply fromPairs_lookup.
    - by rewrite <- list_fmap_compose.
    - apply (list_elem_of_fmap_2
               (λ d, (variable_id d, Lodash.get (heap w) (validation d) "default"))).
      done. }
  split; [done|]. split.
  - intros l Hl. unfold heap_get at 1. rewrite Hseed, Hl. apply get_default.
  - intros l Hid Hl Hblue. rewrite <- Hid. unfold heap_get at 1.
    rewrite Hseed, Hl. cbn [default]. by rewrite get_default.
Qed.

(** C6.  With at least one theme, the theme resolved is a theme whose id
    is the state's [themeId] when there is one (the first of them), and the
    first theme when there is none, as when [themeId] is empty and no theme
    has an empty id. *)
Theorem resolveTheme_by_id_or_first (ts : list Theme) (state : DesignerState) :
  ts ≠ [] →
  (∀ t, t ∈ ts → VString (theme_id t) = themeId state →
        ∃ t', resolveTheme ts state = Some t'
              ∧ t' ∈ ts
              ∧ VString (theme_id t') = themeId state)
  ∧ ((∀ t, t ∈ ts → VString (theme_id t) ≠ themeId state) →
     resolveTheme ts state = head ts ∧ is_Some (head ts))
  ∧ (themeId state = VString "" →
     (∀ t, t ∈ ts → theme_id t ≠ "") →
     resolveTheme ts state = head ts ∧ is_Some (head ts)).
Proof.
  intros Hne.
  assert (is_Some (head ts)) as Hhead by (destruct ts; [done|by eexists]).
  assert ((∀ t, t ∈ ts → VString (theme_id t) ≠ themeId state) →
          resolveTheme ts state = head ts) as Hnone.
  { intros Hno. unfold resolveTheme.
    destruct (List.find _ ts) as [t|] eqn:Hfind; [|done].
    apply List.find_some in Hfind as [Hin Heq].
    apply list_elem_of_In in Hin. unfold strict_eq in Heq.
    apply bool_decide_eq_true in Heq. by destruct (Hno t Hin). }
  split; [|split].
  - intros t Hin Hid. unfold resolveTheme.
    destruct (List.find _ ts) as [t'|] eqn:Hfind.
    + apply List.find_some in Hfind as [Hin' Heq].
      apply list_elem_of_In in Hin'. unfold strict_eq in Heq.
      apply bool_decide_eq_true in Heq. by exists t'.
    + apply list_elem_of_In in Hin.
      pose proof (List.find_none _ _ Hfind t Hin) as Hf. cbv beta in Hf.
      unfold strict_eq in Hf. by apply bool_decide_eq_false in Hf.
  - intros Hno. split; [by apply Hnone|done].
  - intros Hempty Hids. split; [|done]. apply Hnone.
    intros t Hin. rewrite Hempty. intros [= Heq]. by apply (Hids t).
Qed.

(** C9.  Without themes the page renders nothing: it returns [null], does
    not run the initialiser and leaves the world as it is. *)
Theorem page_renders_nothing_without_themes (props : AssetDesignerPageProps)
    (hook : option DesignerState) (w : World) :
  themes props = None →
  AssetDesignerPage props hook w = Ok ((hook, None), w).
Proof. intros Ht. unfold AssetDesignerPage. by rewrite Ht. Qed.

(** C10.  The initialiser reads [variables] of what [getSelection]
    answers: for an initial [selectionId] in neither registry the first
    render throws.  The placeholder only comes in once a state exists: with
    such an id in the state the page renders, and its selection is the
    placeholder. *)
Theorem initial_state_throws_on_unknown_selection (props : AssetDesignerPageProps)
    (ts : list Theme) (w : World) :
  let initial := default {[ "selectionId" := VString "" ]} (initialState props) in
  let sid := default VUndefined (initial !! "selectionId") in
  themes props = Some ts →
  templates !! toPropertyKey (heap w) sid = None →
  components !! toPropertyKey (heap w) sid = None →
  init initial w = Throw TypeError
  ∧ AssetDesignerPage props None w = Throw TypeError
  ∧ ∀ state,
      selectionId state = sid →
      ∃ view,
        AssetDesignerPage props (Some state) w = Ok ((Some state, Some view), w)
        ∧ view_selection view = NoSelectionFound.
Proof.
  intros initial sid Hts Ht Hc.
  assert (getSelection (heap w) sid = None) as Hg.
  { unfold getSelection. by rewrite Ht. }
  assert (init initial w = Throw TypeError) as Hinit.
  { rewrite init_eq. cbv zeta. fold sid. by rewrite Hg. }
  split; [done|]. split.
  - rewrite (page_mount_eq props ts) by done. fold initial. by rewrite Hinit.
  - intros state Hs. rewrite (page_update_eq props ts) by done.
    eexists. split; [reflexivity|]. unfold page_view, resolveSelection.
    cbn [view_selection]. by rewrite Hs, Hg.
Qed.


(** ** More on the write of [UPDATE_VARIABLE] *)

Lemma stringToPath_no_dot s :
  Lodash.reIsDeepProp s = false → Lodash.stringToPath s = [s].
Proof.
  induction s as [|c s IH]; simpl; [done|].
  intros Hd. apply orb_false_iff in Hd as [Hc Hs].
  by rewrite Hc, IH.
Qed.

(** A string made of two dot-free keys joined by a dot splits into them. *)
Lemma stringToPath_two k k2 :
  Lodash.reIsDeepProp k = false →
  Lodash.reIsDeepProp k2 = false →
  Lodash.stringToPath (k +:+ "." +:+ k2) = [k; k2].
Proof.
  intros Hk Hk2. induction k as [|c k IH]; simpl.
  - by rewrite stringToPath_no_dot.
  - simpl in Hk. apply orb_false_iff in Hk as [Hc Hk].
    rewrite Hc. simpl in IH. by rewrite IH.
Qed.

Lemma reIsDeepProp_app_dot k k2 : Lodash.reIsDeepProp (k +:+ "." +:+ k2) = true.
Proof.
  induction k as [|c k IH]; simpl; [done|].
  simpl in IH. rewrite IH. apply orb_true_r.
Qed.

(** A single key is written into the copy and nowhere else. *)
Lemma write_variable_top_level (h : Heap) vars key v :
  Lodash.isKey h (VRef vars) key = true →
  Lodash.unsafe_key key = false →
  write_variable h vars key v
  = (h ++ [Object PlainObject (<[key := v]> (own_props h (VRef vars)))], length h).
Proof.
  intros Hkey Hsafe. rewrite write_variable_eq. f_equal.
  unfold Lodash.castPath. rewrite Hkey.
  rewrite baseSet_cons by (rewrite length_app; simpl; lia).
  rewrite Hsafe. by rewrite heap_assign_fresh.
Qed.

(** Two keys, the first holding no object: a new container is linked under
    the first key and receives the value; the store before is untouched. *)
Lemma write_variable_replaces_primitive (h : Heap) vars k k2 v :
  Lodash.reIsDeepProp k = false →
  Lodash.reIsDeepProp k2 = false →
  heap_lookup h vars (k +:+ "." +:+ k2) = None →
  Lodash.unsafe_key k = false →
  Lodash.unsafe_key k2 = false →
  isObject (heap_get h vars k) = None →
  write_variable h vars (k +:+ "." +:+ k2) v
  = (h ++ [Object PlainObject
             (<[k := VRef (S (length h))]> (own_props h (VRef vars)));
           Object (if Lodash.isIndex k2 then ArrayObject else PlainObject)
                  {[ k2 := v ]}],
     length h).
Proof.
  intros Hk Hk2 Hnokey Hsafe Hsafe2 Hprim.
  rewrite write_variable_eq. f_equal.
  assert (Lodash.castPath h (VRef vars) (k +:+ "." +:+ k2) = [k; k2]) as ->.
  { unfold Lodash.castPath, Lodash.isKey. cbn [key_in].
    rewrite reIsDeepProp_app_dot, Hnokey.
    rewrite bool_decide_false by (by intros [? ?]).
    by apply stringToPath_two. }
  rewrite baseSet_cons by (rewrite length_app; simpl; lia).
  rewrite Hsafe.
  assert (heap_get (h ++ [Object PlainObject (own_props h (VRef vars))])
                   (length h) k = heap_get h vars k) as ->.
  { unfold heap_get. by rewrite copy_lookup. }
  set (copy := Object PlainObject (own_props h (VRef vars))).
  rewrite Hprim, heap_assign_fresh.
  set (o1 := obj_set k _ copy).
  set (o2 := if Lodash.isIndex k2 then empty_array else empty_object).
  replace (length (h ++ [copy])) with (length (h ++ [o1]))
    by (by rewrite !length_app).
  rewrite baseSet_cons by (rewrite !length_app; simpl; lia).
  rewrite Hsafe2, heap_assign_fresh, <- app_assoc. cbn [app].
  unfold o1, o2, obj_set, copy. cbn [kind props].
  rewrite length_app. cbn [length]. rewrite Nat.add_1_r.
  destruct (Lodash.isIndex k2); unfold empty_array, empty_object;
    cbn [kind props]; by rewrite insert_empty.
Qed.

(** When the first key holds an object, the copy keeps pointing to it. *)
Lemma write_variable_head_kept (h : Heap) vars s v key next rest l :
  Lodash.castPath h (VRef vars) s = key :: next :: rest →
  Forall (λ x, x < length h)
         (Lodash.spine h vars (Lodash.castPath h (VRef vars) s)) →
  isObject (heap_get h vars key) = Some l →
  heap_get (write_variable h vars s v).1 (length h) key = VRef l.
Proof.
  intros Hp Hal Hobj. rewrite write_variable_eq. cbn [fst].
  rewrite Hp in Hal |- *. rewrite spine_cons, Hobj in Hal.
  apply Forall_cons in Hal as [Hvars Hal].
  assert (heap_get (h ++ [Object PlainObject (own_props h (VRef vars))])
                   (length h) key = heap_get h vars key) as Hget.
  { unfold heap_get. by rewrite copy_lookup. }
  set (copy := Object PlainObject (own_props h (VRef vars))) in *.
  assert (heap_get (h ++ [copy]) (length h) key = VRef l) as Hl.
  { rewrite Hget. apply heap_get_lookup in Hobj. unfold heap_get. by rewrite Hobj. }
  rewrite baseSet_cons by (rewrite length_app; simpl; lia).
  destruct (Lodash.unsafe_key key); [done|].
  rewrite Hget, Hobj. unfold heap_get, heap_lookup.
  rewrite baseSet_frame.
  - fold (heap_lookup (h ++ [copy]) (length h) key).
    fold (heap_get (h ++ [copy]) (length h) key). done.
  - rewrite spine_app by done. rewrite length_app.
    eapply Forall_impl; [exact Hal|]. simpl. lia.
  - rewrite length_app. simpl. lia.
  - rewrite spine_app by done. intros Hin.
    rewrite Forall_forall in Hal. specialize (Hal _ Hin). simpl in Hal. lia.
Qed.

(** ** Dispatching: history, errors and the store *)

(** X1.  Every dispatch of one of the three kinds that returns pushes
    exactly one history entry, a query; there is no check whether anything
    changed. *)
Theorem dispatch_pushes_one_history_entry (state : DesignerState)
    (action : Action) (w : World) :
  (type action = ActionTypes.UPDATE_SELECTION_ID
   ∨ type action = ActionTypes.UPDATE_THEME_ID →
   ∃ state' w' query,
     assetDesignerReducer state action w = Ok (state', w')
     ∧ history w' = history w ++ ["?" +:+ query])
  ∧ (type action = ActionTypes.UPDATE_VARIABLE →
     is_Some
       (JSON_stringify
          (write_variable (heap w) (variables state) (toKey (field action))
                          (value action)).1
          (VRef (length (heap w)))) →
     ∃ state' w' query,
       assetDesignerReducer state action w = Ok (state', w')
       ∧ history w' = history w ++ ["?" +:+ query]).
Proof.
  split.
  - intros [Ht|Ht].
    + rewrite reducer_update_selection_id, updateQuery_eq by done.
      by eexists _, _, _.
    + rewrite reducer_update_theme_id, updateQuery_eq by done.
      by eexists _, _, _.
  - intros Ht [json Hjson]. rewrite reducer_update_variable by done.
    cbv zeta. rewrite write_variable_new, Hjson, updateQuery_eq.
    by eexists _, _, _.
Qed.

(** The reducer on a field that [isKey] takes for one key. *)
Lemma reducer_single_key_update (state : DesignerState) (action : Action)
    (w : World) :
  type action = ActionTypes.UPDATE_VARIABLE →
  let key := toKey (field action) in
  let h' :=
    heap w ++ [Object PlainObject
                 (<[key := value action]>
                    (own_props (heap w) (VRef (variables state))))] in
  Lodash.isKey (heap w) (VRef (variables state)) key = true →
  Lodash.unsafe_key key = false →
  is_Some (JSON_stringify h' (VRef (length (heap w)))) →
  ∃ w',
    assetDesignerReducer state action w
    = Ok (mkState (themeId state) (selectionId state) (length (heap w)), w')
    ∧ heap w' = h'.
Proof.
  intros Ht key h' Hkey Hsafe [json Hjson].
  rewrite reducer_update_variable by done. cbv zeta. fold key.
  rewrite write_variable_top_level by done.
  cbn [fst snd]. fold h'. rewrite Hjson, updateQuery_eq.
  by eexists.
Qed.

Lemma isKey_no_dot (h : Heap) (object : jsvalue) (key : string) :
  Lodash.reIsDeepProp key = false → Lodash.isKey h object key = true.
Proof. intros Hd. unfold Lodash.isKey. by rewrite Hd. Qed.

(** X3.  A field that is one key (it has no dot, or it is already a key of
    the variables) is written into the copy only: the store gains one
    object, the old variables with the key set, and nothing that was there
    before is touched. *)
Theorem update_variable_single_key_copies (state : DesignerState)
    (action : Action) (w : World) :
  type action = ActionTypes.UPDATE_VARIABLE →
  let key := toKey (field action) in
  let h' :=
    heap w ++ [Object PlainObject
                 (<[key := value action]>
                    (own_props (heap w) (VRef (variables state))))] in
  Lodash.dotted key = true →
  Lodash.reIsDeepProp key = false
  ∨ is_Some (heap_lookup (heap w) (variables state) key) →
  Lodash.unsafe_key key = false →
  is_Some (JSON_stringify h' (VRef (length (heap w)))) →
  ∃ w',
    assetDesignerReducer state action w
    = Ok (mkState (themeId state) (selectionId state) (length (heap w)), w')
    ∧ heap w' = h'.
Proof.
  intros Ht key h' _ Hkey Hsafe Hjson.
  apply reducer_single_key_update; [done| |done|done].
  destruct Hkey as [Hdot|Hown]; [by apply isKey_no_dot|].
  unfold Lodash.isKey. cbn [key_in]. rewrite bool_decide_true by done.
  apply orb_true_r.
Qed.

(** X4.  Writing ["k.k2"] where [k] holds a primitive puts a new container
    under [k], an array when [k2] is an index and a plain object otherwise,
    holding the value under [k2]; the primitive is dropped from the new
    variables and the store before is untouched. *)
Theorem update_variable_replaces_primitive_on_path (state : DesignerState)
    (w : World) (k k2 : string) (v p : jsvalue) :
  let s := k +:+ "." +:+ k2 in
  let h' :=
    heap w ++
    [Object PlainObject
       (<[k := VRef (S (length (heap w)))]>
          (own_props (heap w) (VRef (variables state))));
     Object (if Lodash.isIndex k2 then ArrayObject else PlainObject)
            {[ k2 := v ]}] in
  Lodash.dotted s = true →
  Lodash.reIsDeepProp k = false →
  Lodash.reIsDeepProp k2 = false →
  heap_lookup (heap w) (variables state) s = None →
  Lodash.unsafe_key k = false →
  Lodash.unsafe_key k2 = false →
  heap_lookup (heap w) (variables state) k = Some p →
  isObject p = None →
  is_Some (JSON_stringify h' (VRef (length (heap w)))) →
  ∃ w',
    assetDesignerReducer state (onVariableChange s v) w
    = Ok (mkState (themeId state) (selectionId state) (length (heap w)), w')
    ∧ heap w' = h'
    ∧ heap_get (heap w) (variables state) k = p
    ∧ heap_get (heap w') (length (heap w)) k = VRef (S (length (heap w))).
Proof.
  intros s h' _ Hk Hk2 Hnokey Hsafe Hsafe2 Hown Hprim [json Hjson].
  assert (heap_get (heap w) (variables state) k = p) as Hget.
  { unfold heap_get. by rewrite Hown. }
  rewrite reducer_update_variable by done. cbv zeta.
  cbn [onVariableChange field value toKey]. fold s.
  unfold s at 1 2 3.
  rewrite write_variable_replaces_primitive by (done || by rewrite Hget).
  cbn [fst snd]. fold h'. rewrite Hjson, updateQuery_eq.
  eexists. split; [reflexivity|]. cbn [heap]. split; [done|]. split; [done|].
  unfold h', heap_get, heap_lookup.
  rewrite (list_lookup_middle (heap w) [_] _ (length (heap w))) by done.
  cbn [mbind option_bind props default]. by rewrite lookup_insert_eq.
Qed.

(** X5.  A write along a path whose first key holds an object goes through
    that object, which the input state shares: afterwards the input state's
    variables give the new value under the field as well. *)
Theorem update_variable_writes_through_shared_object (state : DesignerState)
    (action : Action) (w : World) (key next : string) (rest : list string)
    (l : loc) :
  type action = ActionTypes.UPDATE_VARIABLE →
  let s := toKey (field action) in
  let path := Lodash.castPath (heap w) (VRef (variables state)) s in
  let written := write_variable (heap w) (variables state) s (value action) in
  path = key :: next :: rest →
  isObject (heap_get (heap w) (variables state) key) = Some l →
  Lodash.dotted s = true →
  Forall (λ key, Lodash.unsafe_key key = false) path →
  Forall (λ l, l < length (heap w))
         (Lodash.spine (heap w) (variables state) path) →
  NoDup (Lodash.spine (heap w) (variables state) path) →
  is_Some (JSON_stringify written.1 (VRef written.2)) →
  ∃ state' w',
    assetDesignerReducer state action w = Ok (state', w')
    ∧ variables state' ≠ variables state
    ∧ Lodash.get (heap w') (VRef (variables state)) s = value action
    ∧ Lodash.get (heap w') (VRef (variables state')) s = value action.
Proof.
  intros Ht s path written Hp Hobj _ Hsafe Hal Hnd [json Hjson].
  rewrite reducer_update_variable by done. cbv zeta. fold s written.
  rewrite Hjson, updateQuery_eq. cbn [heap location_search history].
  eexists _, _. split; [reflexivity|]. cbn [heap variables].
  assert (written.2 = length (heap w)) as -> by apply write_variable_new.
  subst written path.
  set (h' := (write_variable (heap w) (variables state) s (value action)).1)
    in *.
  assert (variables state < length (heap w)) as Hvars.
  { rewrite Hp in Hal. by inversion Hal. }
  assert (variables state
          ∉ tail (Lodash.spine (heap w) (variables state)
                    (Lodash.castPath (heap w) (VRef (variables state)) s)))
    as Hnot.
  { rewrite Hp in Hnd |- *. rewrite spine_cons in Hnd |- *.
    cbn [tail]. by apply NoDup_cons in Hnd as [? _]. }
  assert (h' !! variables state = heap w !! variables state) as Hsame.
  { by apply write_variable_frame. }
  assert (Lodash.get h' (VRef (length (heap w))) s = value action) as Hnew.
  { by apply write_variable_get. }
  assert (Lodash.castPath h' (VRef (length (heap w))) s = key :: next :: rest)
    as Hcast_new.
  { unfold h'. by rewrite write_variable_castPath. }
  assert (Lodash.castPath h' (VRef (variables state)) s = key :: next :: rest)
    as Hcast_old.
  { rewrite <- Hp. unfold Lodash.castPath, Lodash.isKey. cbn [key_in].
    unfold heap_lookup. by rewrite Hsame. }
  assert (heap_get h' (length (heap w)) key = VRef l) as Hhead_new.
  { by apply (write_variable_head_kept _ _ _ _ key next rest l). }
  assert (heap_get h' (variables state) key = VRef l) as Hhead_old.
  { unfold heap_get, heap_lookup. rewrite Hsame.
    apply heap_get_lookup in Hobj. unfold heap_lookup in Hobj. by rewrite Hobj. }
  split; [lia|]. split; [|done].
  etrans; [|exact Hnew]. unfold Lodash.get, Lodash.baseGet.
  rewrite Hcast_new, Hcast_old. cbn [Lodash.baseGet_from member].
  by rewrite Hhead_new, Hhead_old.
Qed.

Lemma own_props_fresh (h : Heap) (o : object) :
  own_props (h ++ [o]) (VRef (length h)) = props o.
Proof. unfold own_props. by rewrite list_lookup_middle. Qed.

(** X6.  Two updates of single keys one after the other: the second
    builds on the first, so the final variables are the old ones with both
    keys set (the second winning when the keys coincide), every other entry
    as before, and two history entries are pushed. *)
Theorem two_single_key_updates_accumulate (state : DesignerState) (w : World)
    (k1 k2 : string) (v1 v2 : jsvalue) :
  let old := own_props (heap w) (VRef (variables state)) in
  let h1 := heap w ++ [Object PlainObject (<[k1 := v1]> old)] in
  let h2 := h1 ++ [Object PlainObject (<[k2 := v2]> (<[k1 := v1]> old))] in
  Lodash.dotted k1 = true → Lodash.dotted k2 = true →
  Lodash.reIsDeepProp k1 = false → Lodash.reIsDeepProp k2 = false →
  Lodash.unsafe_key k1 = false → Lodash.unsafe_key k2 = false →
  is_Some (JSON_stringify h1 (VRef (length (heap w)))) →
  is_Some (JSON_stringify h2 (VRef (S (length (heap w))))) →
  ∃ s1 w1 s2 w2,
    assetDesignerReducer state (onVariableChange k1 v1) w = Ok (s1, w1)
    ∧ assetDesignerReducer s1 (onVariableChange k2 v2) w1 = Ok (s2, w2)
    ∧ heap w2 = h2
    ∧ heap_get (heap w2) (variables s2) k2 = v2
    ∧ (k1 ≠ k2 → heap_get (heap w2) (variables s2) k1 = v1)
    ∧ (∀ k, k ≠ k1 → k ≠ k2 →
            heap_lookup (heap w2) (variables s2) k
            = heap_lookup (heap w) (variables state) k)
    ∧ length (history w2) = length (history w) + 2.
Proof.
  intros old h1 h2 Hd1 Hd2 Hk1 Hk2 Hs1 Hs2 [j1 Hj1] [j2 Hj2].
  destruct (reducer_single_key_update state (onVariableChange k1 v1) w)
    as (w1 & Hr1 & Hh1); [done|by apply isKey_no_dot|done|by eexists|].
  cbn [onVariableChange field value toKey] in Hr1, Hh1. fold old h1 in Hh1.
  set (s1 := mkState (themeId state) (selectionId state) (length (heap w))) in *.
  assert (own_props (heap w1) (VRef (variables s1)) = <[k1 := v1]> old) as Hold1.
  { rewrite Hh1. unfold h1. cbn [variables s1]. by rewrite own_props_fresh. }
  assert (length (heap w1) = S (length (heap w))) as Hlen1.
  { rewrite Hh1. unfold h1. rewrite length_app. simpl. lia. }
  destruct (reducer_single_key_update s1 (onVariableChange k2 v2) w1)
    as (w2 & Hr2 & Hh2); [done|by apply isKey_no_dot|done| |].
  { cbn [onVariableChange field value toKey]. rewrite Hold1, Hlen1, Hh1.
    fold h2. by eexists. }
  cbn [onVariableChange field value toKey] in Hr2, Hh2.
  rewrite Hold1, Hh1 in Hh2. fold h2 in Hh2.
  eexists s1, w1, _, w2. split; [exact Hr1|]. split; [exact Hr2|].
  split; [exact Hh2|]. cbn [variables].
  assert (∀ k, heap_lookup (heap w2) (length (heap w1)) k
               = (<[k2 := v2]> (<[k1 := v1]> old)) !! k) as Hlook.
  { intros k. rewrite Hh2. unfold h2. rewrite Hh1.
    by rewrite heap_lookup_fresh. }
  split; [|split; [|split]].
  - unfold heap_get. by rewrite Hlook, lookup_insert_eq.
  - intros Hne. unfold heap_get.
    by rewrite Hlook, lookup_insert_ne, lookup_insert_eq.
  - intros k Hn1 Hn2. rewrite Hlook, !lookup_insert_ne by done.
    unfold old, own_props, heap_lookup.
    by destruct (heap w !! variables state).
  - pose proof (reducer_update_variable state (onVariableChange k1 v1) w eq_refl)
      as He1.
    pose proof (reducer_update_variable s1 (onVariableChange k2 v2) w1 eq_refl)
      as He2.
    rewrite Hr1 in He1. rewrite Hr2 in He2. cbv zeta in He1, He2.
    destruct (JSON_stringify _ _) in He1; [|done].
    destruct (JSON_stringify _ _) in He2; [|done].
    rewrite updateQuery_eq in He1, He2. cbv zeta in He1, He2.
    injection He1 as ->. injection He2 as ->. cbn [history].
    rewrite !length_app. simpl. lia.
Qed.

(** ** Dispatching and rendering together *)

Lemma own_props_lookup (h : Heap) (l : loc) (k : string) :
  own_props h (VRef l) !! k = heap_lookup h l k.
Proof. unfold own_props, heap_lookup. by destruct (h !! l). Qed.

Lemma Object_keys_elem {A} (m : gmap string A) (k : string) :
  k ∈ Object_keys m ↔ is_Some (m !! k).
Proof.
  unfold Object_keys. rewrite list_elem_of_fmap. split.
  - intros ([k' x] & -> & Hin). apply elem_of_map_to_list in Hin. by eexists.
  - intros [x Hx]. exists (k, x). split; [done|]. by apply elem_of_map_to_list.
Qed.

(** X7.  After [UPDATE_SELECTION_ID], looking the new state's
    [selectionId] up gives what looking the dispatched value up gave
    before, for [getSelection] and for the page's resolution alike. *)
Theorem selection_dispatch_then_resolve (state : DesignerState) (action : Action)
    (w : World) :
  type action = ActionTypes.UPDATE_SELECTION_ID →
  ∃ state' w',
    assetDesignerReducer state action w = Ok (state', w')
    ∧ getSelection (heap w') (selectionId state')
      = getSelection (heap w) (value action)
    ∧ ∀ ts, view_selection (page_view (heap w') ts state')
            = resolveSelection (heap w) (value action).
Proof.
  intros Ht. rewrite reducer_update_selection_id, updateQuery_eq by done.
  eexists _, _. split; [reflexivity|]. by cbn [heap selectionId].
Qed.

(** X8.  Switching the selection neither prunes nor seeds variables: the
    main element gets the same variables as before and the theme stays.  A
    variable the new selection declares and the state does not hold is
    overlaid with undefined, is not passed to the element, and is shown in
    the sidebar with its declared default. *)
Theorem selection_switch_keeps_variables (state : DesignerState) (action : Action)
    (w : World) (ts : list Theme) :
  type action = ActionTypes.UPDATE_SELECTION_ID →
  ∃ state' w',
    assetDesignerReducer state action w = Ok (state', w')
    ∧ props_variables (view_main_props (page_view (heap w') ts state'))
      = props_variables (view_main_props (page_view (heap w) ts state))
    ∧ view_theme (page_view (heap w') ts state')
      = view_theme (page_view (heap w) ts state)
    ∧ ∀ selection vars d,
        getSelection (heap w) (value action) = Some selection →
        declared_variables selection = Some vars →
        d ∈ vars →
        heap_lookup (heap w) (variables state) (variable_id d) = None →
        (d, VUndefined) ∈ view_variables (page_view (heap w') ts state')
        ∧ props_variables (view_main_props (page_view (heap w') ts state'))
            !! variable_id d = None
        ∧ (variable_id d, Lodash.get (heap w') (validation d) "default")
          ∈ sidebar_variables (page_sidebar (heap w') ts state').
Proof.
  intros Ht. rewrite reducer_update_selection_id, updateQuery_eq by done.
  eexists _, _. split; [reflexivity|]. cbn [heap].
  split; [done|]. split; [done|].
  intros selection vars d Hsel Hvars Hd Hnone.
  assert ((d, VUndefined)
          ∈ view_variables
              (page_view (heap w) ts
                 (mkState (themeId state) (value action) (variables state))))
    as Hin.
  { unfold page_view, resolveSelection. cbn [view_variables selectionId variables].
    rewrite Hsel. cbn [default from_option id]. rewrite Hvars.
    apply (list_elem_of_fmap_2'
             (λ variable,
                (variable, heap_get (heap w) (variables state) (variable_id variable)))
             _ d); [done|].
    unfold heap_get. by rewrite Hnone. }
  split; [done|]. split.
  - unfold page_view. cbn [view_main_props props_variables variables].
    rewrite lookup_delete_None. right. rewrite lookup_delete_None. right.
    by rewrite own_props_lookup.
  - unfold page_sidebar. cbn [sidebar_variables].
    apply (list_elem_of_fmap_2'
             (λ variable, (variable_id variable.1,
                           selectedVariable (heap w) variable))
             _ (d, VUndefined)); [done|].
    done.
Qed.

(** A theme with the state's [themeId] is resolved when there is one. *)
Lemma resolveTheme_found (ts : list Theme) (state : DesignerState) (t : Theme) :
  t ∈ ts →
  VString (theme_id t) = themeId state →
  ∃ t', resolveTheme ts state = Some t'
        ∧ t' ∈ ts
        ∧ VString (theme_id t') = themeId state.
Proof.
  intros Hin Hid. unfold resolveTheme.
  destruct (List.find _ ts) as [t'|] eqn:Hfind.
  - apply List.find_some in Hfind as [Hin' Heq].
    apply list_elem_of_In in Hin'. unfold strict_eq in Heq.
    apply bool_decide_eq_true in Heq. by exists t'.
  - apply list_elem_of_In in Hin.
    pose proof (List.find_none _ _ Hfind t Hin) as Hf. cbv beta in Hf.
    unfold strict_eq in Hf. by apply bool_decide_eq_false in Hf.
Qed.

(** X9.  Every theme is an option of the theme selector, with its id as
    value and label.  Choosing it dispatches [UPDATE_THEME_ID]; the field
    name the selector passes along plays no part: the query pushed has
    [themeId] set to the id and no [conferenceSeriesId] added, and the theme
    shown afterwards has the chosen id. *)
Theorem theme_selector_choice_resolves (state : DesignerState) (w : World)
    (ts : list Theme) (t : Theme) :
  t ∈ ts →
  let sidebar := page_sidebar (heap w) ts state in
  (theme_id t, theme_id t) ∈ select_options (sidebar_themes sidebar)
  ∧ ∃ state' w' (merged : gmap string jsvalue),
      assetDesignerReducer state
        (select_onChange (sidebar_themes sidebar) (theme_id t)) w
      = Ok (state', w')
      ∧ themeId state' = VString (theme_id t)
      ∧ history w' = history w ++ ["?" +:+ queryString_stringify (heap w) merged]
      ∧ merged !! "themeId" = Some (VString (theme_id t))
      ∧ merged !! "conferenceSeriesId"
        = queryString_parse (location_search w) !! "conferenceSeriesId"
      ∧ ∃ t', view_theme (page_view (heap w') ts state') = Some t'
              ∧ theme_id t' = theme_id t
              ∧ t' ∈ ts.
Proof.
  intros Hin sidebar. split.
  - unfold sidebar, page_sidebar, ThemeSelector.
    cbn [sidebar_themes select_options].
    by apply (list_elem_of_fmap_2 (λ theme, (theme_id theme, theme_id theme))).
  - unfold sidebar, page_sidebar, ThemeSelector.
    cbn [sidebar_themes select_onChange]. unfold onThemeChange.
    rewrite reducer_update_theme_id, updateQuery_eq by done. cbv zeta.
    cbn [value]. eexists _, _, _. split; [reflexivity|].
    cbn [themeId heap history]. split; [done|]. split; [reflexivity|].
    split; [apply lookup_insert_eq|]. split; [by apply lookup_insert_ne|].
    set (state' := mkState (VString (theme_id t)) (selectionId state)
                           (variables state)).
    destruct (resolveTheme_found ts state' t Hin eq_refl)
      as (t' & Hr & Hin' & Hid).
    exists t'. cbn [themeId state'] in Hid. injection Hid as Hid.
    by unfold page_view.
Qed.

(** X10.  The two component selectors list the keys of the registries.
    The id the state selects is shown as text; every other id is a link
    whose click dispatches [UPDATE_SELECTION_ID] with that id, after which
    the selection is found in a registry: a click never leads to the
    placeholder. *)
Theorem component_selector_links_known_selections (state : DesignerState)
    (h : Heap) (ts : list Theme) (id : string) :
  let sidebar := page_sidebar h ts state in
  is_Some (templates !! id) ∨ is_Some (components !! id) →
  (VString id = selectionId state →
   SelectedOption id ∈ sidebar_templates sidebar ++ sidebar_components sidebar)
  ∧ (VString id ≠ selectionId state →
     ClickableOption id (onSelectionChange id)
     ∈ sidebar_templates sidebar ++ sidebar_components sidebar
     ∧ ∀ w, ∃ state' w' selection,
         assetDesignerReducer state (onSelectionChange id) w = Ok (state', w')
         ∧ selectionId state' = VString id
         ∧ getSelection (heap w') (selectionId state') = Some selection
         ∧ ∀ ts', view_selection (page_view (heap w') ts' state') = selection).
Proof.
  intros sidebar Hknown.
  assert (id ∈ Object_keys templates ∨ id ∈ Object_keys components) as Hkeys.
  { destruct Hknown; [left|right]; by apply Object_keys_elem. }
  assert (∀ item,
            (if strict_eq (VString id) (selectionId state)
             then SelectedOption id
             else ClickableOption id (onSelectionChange id)) = item →
            item ∈ sidebar_templates sidebar ++ sidebar_components sidebar)
    as Hitem.
  { intros item <-. apply elem_of_app. unfold sidebar, page_sidebar.
    cbn [sidebar_templates sidebar_components]. unfold ComponentSelector.
    destruct Hkeys as [Hk|Hk]; [left|right];
      by apply (list_elem_of_fmap_2
                  (λ templateId,
                     if strict_eq (VString templateId) (selectionId state)
                     then SelectedOption templateId
                     else ClickableOption templateId
                            (onSelectionChange templateId))). }
  split.
  - intros Heq. apply Hitem. unfold strict_eq. by rewrite bool_decide_true.
  - intros Hneq. split.
    + apply Hitem. unfold strict_eq. by rewrite bool_decide_false.
    + intros w. unfold onSelectionChange.
      rewrite reducer_update_selection_id, updateQuery_eq by done.
      cbn [value].
      assert (∃ selection, getSelection (heap w) (VString id) = Some selection)
        as [selection Hsel].
      { unfold getSelection. cbn [toPropertyKey].
        destruct (templates !! id) as [r|] eqn:Ht; [by eexists|].
        destruct Hknown as [[? ?]|[r Hc]]; [done|]. by exists r. }
      eexists _, _, selection. split; [reflexivity|].
      cbn [selectionId heap]. split; [done|]. split; [done|].
      intros ts'. unfold page_view, resolveSelection.
      cbn [view_selection selectionId]. by rewrite Hsel.
Qed.

(** X11.  After a variable of the selection is set to a value, the
    overlay and the main element's props hold that value, but the sidebar
    shows it only when it counts as true: for undefined, null, false, zero
    and the empty string it shows the declared default instead. *)
Theorem falsy_value_shows_default (state : DesignerState) (w : World)
    (ts : list Theme) (name : string) (selection : Renderable)
    (vars : list VariableDescriptor) (d : VariableDescriptor) (v : jsvalue) :
  let key := variable_id d in
  let h' :=
    heap w ++ [Object PlainObject
                 (<[key := v]> (own_props (heap w) (VRef (variables state))))] in
  selectionId state = VString name →
  getSelection (heap w) (VString name) = Some selection →
  declared_variables selection = Some vars →
  d ∈ vars →
  Lodash.dotted key = true →
  Lodash.reIsDeepProp key = false →
  Lodash.unsafe_key key = false →
  is_Some (JSON_stringify h' (VRef (length (heap w)))) →
  ∃ state' w',
    assetDesignerReducer state (onVariableChange key v) w = Ok (state', w')
    ∧ (d, v) ∈ view_variables (page_view (heap w') ts state')
    ∧ (key ≠ "id" → key ≠ "theme" →
       props_variables (view_main_props (page_view (heap w') ts state')) !! key
       = Some v)
    ∧ (key, if truthy v then v
            else Lodash.get (heap w') (validation d) "default")
      ∈ sidebar_variables (page_sidebar (heap w') ts state').
Proof.
  intros key h' Hsid Hsel Hvars Hd Hdot Hdeep Hsafe Hjson.
  destruct (reducer_single_key_update state (onVariableChange key v) w)
    as (w' & Hr & Hh); [done|by apply isKey_no_dot|done|done|].
  cbn [onVariableChange field value toKey] in Hr, Hh. fold h' in Hh.
  eexists _, w'. split; [exact Hr|]. rewrite Hh.
  set (state' := mkState (themeId state) (selectionId state) (length (heap w))).
  assert (heap_lookup h' (length (heap w)) key = Some v) as Hkey.
  { unfold h'. rewrite heap_lookup_fresh. cbn [props]. apply lookup_insert_eq. }
  assert ((d, v) ∈ view_variables (page_view h' ts state')) as Hin.
  { unfold page_view, resolveSelection. cbn [view_variables selectionId variables state'].
    rewrite Hsid.
    change (getSelection h' (VString name))
      with (getSelection (heap w) (VString name)).
    rewrite Hsel. cbn [default from_option id]. rewrite Hvars.
    apply (list_elem_of_fmap_2'
             (λ variable,
                (variable, heap_get h' (length (heap w)) (variable_id variable)))
             _ d); [done|].
    unfold heap_get. fold key. by rewrite Hkey. }
  split; [done|]. split.
  - intros Hid Htheme. unfold page_view.
    cbn [view_main_props props_variables variables state'].
    rewrite !lookup_delete_ne by done. by rewrite own_props_lookup.
  - unfold page_sidebar. cbn [sidebar_variables].
    by apply (list_elem_of_fmap_2'
                (λ variable, (variable_id variable.1, selectedVariable h' variable))
                _ (d, v)).
Qed.

(** X12.  A registered selection that declares no [variables] cannot be
    the initial selection: the initialiser throws.  Once it is the state's
    selection the page renders it, with no variable to overlay and no
    variable selector. *)
Theorem selection_without_variables (props : AssetDesignerPageProps)
    (ts : list Theme) (w : World) (selection : Renderable) :
  let initial := default {[ "selectionId" := VString "" ]} (initialState props) in
  let sid := default VUndefined (initial !! "selectionId") in
  themes props = Some ts →
  getSelection (heap w) sid = Some selection →
  declared_variables selection = None →
  AssetDesignerPage props None w = Throw TypeError
  ∧ ∀ state,
      selectionId state = sid →
      ∃ view,
        AssetDesignerPage props (Some state) w = Ok ((Some state, Some view), w)
        ∧ view_selection view = selection
        ∧ view_variables view = []
        ∧ sidebar_variables (page_sidebar (heap w) ts state) = [].
Proof.
  intros initial sid Hts Hsel Hvars. split.
  - rewrite (page_mount_eq props ts) by done. fold initial.
    rewrite init_eq. cbv zeta. fold sid. by rewrite Hsel, Hvars.
  - intros state Hs. rewrite (page_update_eq props ts) by done.
    eexists. split; [reflexivity|].
    unfold page_sidebar, page_view, resolveSelection.
    cbn [view_selection view_variables sidebar_variables].
    rewrite Hs, Hsel. cbn [default from_option id]. by rewrite Hvars.
Qed.

Lemma fromPairs_is_Some (pairs : list (string * jsvalue)) :
  ∀ (m : gmap string jsvalue) k,
    is_Some (foldl (λ m kv, <[kv.1 := kv.2]> m) m pairs !! k)
    ↔ k ∈ pairs.*1 ∨ is_Some (m !! k).
Proof.
  induction pairs as [|[k' v'] pairs IH]; intros m k.
  - simpl. split; [by right|]. intros [Hin|?]; [|done]. by apply elem_of_nil in Hin.
  - cbn [foldl]. rewrite IH, fmap_cons, elem_of_cons. cbn [fst snd].
    rewrite lookup_insert_is_Some. split.
    + intros [?|[->|[_ ?]]]; auto.
    + intros [[->|?]|?]; auto.
      destruct (decide (k' = k)) as [->|]; auto.
Qed.

(** X13.  The initialiser creates one object, the variables, whose keys
    are exactly the ids the selection declares; it leaves every object of
    the store as it was and pushes nothing: location and history are
    untouched. *)
Theorem seeded_keys_are_declared_ids (initialState : gmap string jsvalue)
    (w : World) (selection : Renderable) (vars : list VariableDescriptor) :
  getSelection (heap w) (default VUndefined (initialState !! "selectionId"))
  = Some selection →
  declared_variables selection = Some vars →
  ∃ state w',
    init initialState w = Ok (state, w')
    ∧ (∀ k, is_Some (heap_lookup (heap w') (variables state) k)
            ↔ k ∈ variable_id <$> vars)
    ∧ (∀ l, l < length (heap w) → heap w' !! l = heap w !! l)
    ∧ location_search w' = location_search w
    ∧ history w' = history w.
Proof.
  intros Hsel Hvars. rewrite init_eq. cbv zeta. rewrite Hsel, Hvars.
  eexists _, _. split; [reflexivity|].
  cbn [heap variables location_search history].
  split; [|split; [|done]].
  - intros k. rewrite heap_lookup_fresh. cbn [props].
    rewrite fromPairs_is_Some, <- list_fmap_compose, lookup_empty.
    split; [intros [?|[? ?]]; done|by left].
  - intros l Hl. by apply lookup_app_l.
Qed.

(** X14.  When several declared variables share an id, the default of the
    last of them is the one seeded. *)
Theorem seeded_last_duplicate_wins (initialState : gmap string jsvalue)
    (w : World) (selection : Renderable)
    (before after : list VariableDescriptor) (d : VariableDescriptor) :
  getSelection (heap w) (default VUndefined (initialState !! "selectionId"))
  = Some selection →
  declared_variables selection = Some (before ++ d :: after) →
  variable_id d ∉ variable_id <$> after →
  ∃ state w',
    init initialState w = Ok (state, w')
    ∧ heap_lookup (heap w') (variables state) (variable_id d)
      = Some (Lodash.get (heap w) (validation d) "default").
Proof.
  intros Hsel Hvars Hlast. rewrite init_eq. cbv zeta. rewrite Hsel, Hvars.
  eexists _, _. split; [reflexivity|]. cbn [heap variables].
  rewrite heap_lookup_fresh. cbn [props].
  rewrite map_app, foldl_app. cbn [map foldl fst snd].
  rewrite fromPairs_not_in; [apply lookup_insert_eq|].
  by rewrite <- list_fmap_compose.
Qed.

(** X15.  No theme is resolved exactly when the list of themes is empty.
    With an empty list the page still renders (unlike with missing themes):
    the sidebar's background is the empty string and the element gets no
    theme. *)
Theorem resolveTheme_none_iff_no_themes (props : AssetDesignerPageProps)
    (state : DesignerState) (w : World) (ts : list Theme) :
  (resolveTheme ts state = None ↔ ts = [])
  ∧ (themes props = Some [] →
     ∃ view,
       AssetDesignerPage props (Some state) w = Ok ((Some state, Some view), w)
       ∧ view_theme view = None
       ∧ view_sidebar_background view = ""
       ∧ props_theme (view_main_props view) = None).
Proof.
  split.
  - split.
    + intros Hnone. destruct ts as [|t ts]; [done|].
      unfold resolveTheme in Hnone.
      by destruct (List.find _ (t :: ts)).
    + by intros ->.
  - intros Hts. rewrite (page_update_eq props []) by done.
    eexists. by split.
Qed.

(** X16.  [updateQuery] reads the location it changed: when the query
    pushed first parses back to the parameters it was made from, a second
    call pushes the parameters of the first together with its own field, so
    successive updates accumulate in the URL. *)
Theorem two_pushes_accumulate (field1 field2 : string) (value1 value2 : jsvalue)
    (w : World) :
  let m1 := <[field1 := value1]> (queryString_parse (location_search w)) in
  let url1 := "?" +:+ queryString_stringify (heap w) m1 in
  queryString_parse (if bool_decide (url1 = "?") then "" else url1) = m1 →
  ∃ w1 w2,
    updateQuery field1 value1 w = Ok (tt, w1)
    ∧ updateQuery field2 value2 w1 = Ok (tt, w2)
    ∧ history w2
      = history w
        ++ [url1;
            "?" +:+ queryString_stringify (heap w) (<[field2 := value2]> m1)]
    ∧ heap w2 = heap w.
Proof.
  intros m1 url1 Hparse. rewrite updateQuery_eq. cbv zeta. fold m1 url1.
  eexists _, _. split; [reflexivity|]. rewrite updateQuery_eq. cbv zeta.
  cbn [heap location_search history]. rewrite Hparse.
  split; [reflexivity|]. cbn [heap history]. split; [|done].
  by rewrite <- app_assoc.
Qed.
End Designer.

(** ** The theorems at work on the small instance *)

Local Abbreviation demo_reducer :=
  (assetDesignerReducer Demo.JSON_stringify Demo.queryString_parse
     Demo.queryString_stringify).

Local Abbreviation demo_page :=
  (AssetDesignerPage Demo.templates Demo.components Demo.host_toString).

(** The reducer writes through the objects that the old and the new state
    share: after renaming the speaker, the old state's variables show the
    new name as well. *)
Example reducer_writes_through_shared_objects :
  ∃ state' w',
    demo_reducer Demo.state
      (mkAction ActionTypes.UPDATE_VARIABLE (Some "speaker.name") (VString "Bob"))
      Demo.world
    = Ok (state', w')
    ∧ variables state' ≠ variables Demo.state
    ∧ Lodash.get (heap Demo.world) (VRef (variables Demo.state)) "speaker.name"
      = VString "Ann"
    ∧ Lodash.get (heap w') (VRef (variables Demo.state)) "speaker.name"
      = VString "Bob"
    ∧ Lodash.get (heap w') (VRef (variables state')) "speaker.name"
      = VString "Bob".
Proof. eexists _, _. split; [vm_compute; reflexivity|]. by vm_compute. Qed.



Lemma update_variable_writes_path_witness :
  (∃ w',
     demo_reducer (mkState (VString "") (VString "talk") 0)
       (mkAction ActionTypes.UPDATE_VARIABLE (Some "a.b") (VNumber 5))
       (mkWorld [empty_object] "" [])
     = Ok (mkState (VString "") (VString "talk") 1, w')
     ∧ heap w' = [empty_object;
                  Object PlainObject {[ "a" := VRef 2 ]};
                  Object PlainObject {[ "b" := VNumber 5 ]}])
  ∧ (∃ state' w',
       demo_reducer Demo.state
         (mkAction ActionTypes.UPDATE_VARIABLE (Some "speaker.name") (VString "Bob"))
         Demo.world
       = Ok (state', w')
       ∧ Lodash.get (heap w') (VRef (variables state')) "speaker.name"
         = VString "Bob").
Proof.
  destruct (update_variable_writes_path Demo.JSON_stringify
              Demo.queryString_parse Demo.queryString_stringify)
    as [Hexample Hgeneral].
  split.
  - apply (Hexample (mkState (VString "") (VString "talk") 0)
                    (mkWorld [empty_object] "" [])).
    + reflexivity.
    + by eexists.
  - apply (Hgeneral Demo.state
             (mkAction ActionTypes.UPDATE_VARIABLE (Some "speaker.name")
                       (VString "Bob"))
             Demo.world).
    + reflexivity.
    + reflexivity.
    + vm_compute. repeat constructor.
    + vm_compute. repeat constructor.
    + change (NoDup [2; 1]). apply NoDup_cons. split; [|apply NoDup_singleton].
      rewrite list_elem_of_singleton. discriminate.
    + by eexists.
Defined.

Lemma reducer_unknown_action_throws_witness :
  demo_reducer Demo.state (mkAction (VNumber 7) None VUndefined) Demo.world
  = Throw (Error "No matching reducer found!").
Proof.
  apply (reducer_unknown_action_throws Demo.JSON_stringify
           Demo.queryString_parse Demo.queryString_stringify);
    discriminate.
Defined.

Lemma updateQuery_merges_field_witness :
  (∃ (merged : gmap string jsvalue) w',
     updateQuery Demo.queryString_parse Demo.queryString_stringify
       "themeId" (VString "light") Demo.world
     = Ok (tt, w')
     ∧ history w' = ["?" +:+ Demo.queryString_stringify Demo.store merged]
     ∧ merged !! "themeId" = Some (VString "light")
     ∧ merged !! "selectionId" = Some (VString "talk")
     ∧ merged !! "variables" = Some (VString "{}"))
  ∧ (∃ state' w' (merged : gmap string jsvalue),
       demo_reducer Demo.state
         (mkAction ActionTypes.UPDATE_VARIABLE (Some "color") (VString "green"))
         Demo.world
       = Ok (state', w')
       ∧ Demo.JSON_stringify (heap w') (VRef (variables state')) = Some "{}"
       ∧ merged !! "variables" = Some (VString "{}")
       ∧ merged !! "themeId" = Some (VString "dark")).
Proof.
  destruct (updateQuery_merges_field Demo.JSON_stringify
              Demo.queryString_parse Demo.queryString_stringify)
    as [Hmerge Hvariables].
  split.
  - destruct (Hmerge "themeId" (VString "light") Demo.world)
      as (merged & w' & Hr & Hh & _ & Hfield & Hother).
    exists merged, w'. split; [exact Hr|]. split; [exact Hh|].
    split; [exact Hfield|]. split; rewrite Hother by discriminate; reflexivity.
  - destruct (Hvariables Demo.state
                (mkAction ActionTypes.UPDATE_VARIABLE (Some "color")
                          (VString "green"))
                Demo.world "{}" eq_refl eq_refl)
      as (state' & w' & merged & Hr & Hjson & _ & Hfield & Hother).
    exists state', w', merged. split; [exact Hr|]. split; [exact Hjson|].
    split; [exact Hfield|]. rewrite Hother by discriminate. reflexivity.
Defined.

Lemma getSelection_falls_back_to_placeholder_witness :
  getSelection Demo.templates Demo.components Demo.host_toString Demo.store
    (VString "talk") = Some Demo.talk
  ∧ getSelection Demo.templates Demo.components Demo.host_toString Demo.store
      (VString "badge") = Some Demo.badge
  ∧ getSelection Demo.templates Demo.components Demo.host_toString Demo.store
      (VString "nope") = None
  ∧ resolveSelection Demo.templates Demo.components Demo.host_toString Demo.store
      (VString "nope") = NoSelectionFound.
Proof.
  destruct (getSelection_falls_back_to_placeholder Demo.templates
              Demo.components Demo.host_toString Demo.store (VString "talk"))
    as (Htalk & _).
  destruct (getSelection_falls_back_to_placeholder Demo.templates
              Demo.components Demo.host_toString Demo.store (VString "badge"))
    as (_ & Hbadge & _).
  destruct (getSelection_falls_back_to_placeholder Demo.templates
              Demo.components Demo.host_toString Demo.store (VString "nope"))
    as (_ & _ & Hnope & _).
  split; [by apply Htalk|]. split; [by rewrite Hbadge|].
  destruct Hnope as (Hnone & Hplaceholder & _); [reflexivity|reflexivity|].
  by split.
Defined.

(** C3, counterexample.  The page is loaded with the query
    [?selectionId=talk&themeId=dark&variables=...], and the same three
    entries are even handed over as [initialState]; the initial state has
    the empty [themeId], not ["dark"], and the theme shown is the first
    one. *)
Lemma page_load_ignores_url_theme :
  ∃ state view w',
    demo_page
      (mkProps (Some {[ "selectionId" := VString "talk";
                        "themeId" := VString "dark";
                        "variables" := VString "{}" ]})
               (Some Demo.themes))
      None Demo.world
    = Ok ((Some state, Some view), w')
    ∧ Demo.queryString_parse (location_search Demo.world) !! "themeId"
      = Some (VString "dark")
    ∧ themeId state = VString ""
    ∧ themeId state ≠ VString "dark"
    ∧ view_theme view = Some (mkTheme "light" "#fff").
Proof.
  eexists _, _, _. split; [vm_compute; reflexivity|].
  split; [by vm_compute|]. split; [done|]. split; [discriminate|].
  by vm_compute.
Qed.

Lemma initial_state_reads_selectionId_only_witness :
  (∃ state w',
     init Demo.templates Demo.components Demo.host_toString
       {[ "selectionId" := VString "talk" ]} Demo.world
     = Ok (state, w')
     ∧ themeId state = VString ""
     ∧ selectionId state = VString "talk"
     ∧ heap w' !! variables state
       = Some (Object PlainObject {[ "color" := VString "blue" ]}))
  ∧ match
      init Demo.templates Demo.components Demo.host_toString
        {[ "selectionId" := VString "talk" ]} Demo.world,
      init Demo.templates Demo.components Demo.host_toString
        {[ "selectionId" := VString "talk"; "themeId" := VString "dark";
           "variables" := VString "{}" ]}
        (mkWorld Demo.store "" [])
    with
    | Ok (s1, w1'), Ok (s2, w2') => s1 = s2 ∧ heap w1' = heap w2'
    | Throw e1, Throw e2 => e1 = e2
    | _, _ => False
    end.
Proof.
  destruct (initial_state_reads_selectionId_only Demo.templates
              Demo.components Demo.host_toString) as [Hinit Hsame].
  split.
  - destruct (Hinit {[ "selectionId" := VString "talk" ]} Demo.world Demo.talk
                [mkVariable "color" (VRef 0)])
      as (state & w' & Hr & Ht & Hs & Hv); [reflexivity|reflexivity|].
    exists state, w'. split; [exact Hr|]. split; [exact Ht|]. split; [exact Hs|].
    rewrite Hv. reflexivity.
  - apply Hsame; reflexivity.
Defined.

Lemma initial_state_seeds_defaults_witness :
  ∃ state view w',
    demo_page (mkProps (Some {[ "selectionId" := VString "talk" ]})
                       (Some Demo.themes))
      None Demo.world
    = Ok ((Some state, Some view), w')
    ∧ heap_get (heap w') (variables state) "color" = VString "blue".
Proof.
  destruct (initial_state_seeds_defaults Demo.templates Demo.components
              Demo.host_toString
              (mkProps (Some {[ "selectionId" := VString "talk" ]})
                       (Some Demo.themes))
              Demo.themes Demo.world Demo.talk
              [mkVariable "color" (VRef 0)] (mkVariable "color" (VRef 0)))
    as (state & view & w' & Hr & _ & _ & Hblue).
  - reflexivity.
  - reflexivity.
  - reflexivity.
  - apply NoDup_singleton.
  - apply list_elem_of_here.
  - exists state, view, w'. split; [exact Hr|].
    apply (Hblue 0); reflexivity.
Defined.

Lemma resolveTheme_by_id_or_first_witness :
  (∃ t, resolveTheme Demo.themes (mkState (VString "dark") (VString "talk") 2)
        = Some t
        ∧ VString (theme_id t) = VString "dark")
  ∧ resolveTheme Demo.themes Demo.state = Some (mkTheme "light" "#fff").
Proof.
  destruct (resolveTheme_by_id_or_first Demo.themes
              (mkState (VString "dark") (VString "talk") 2))
    as (Hfound & _); [discriminate|].
  destruct (resolveTheme_by_id_or_first Demo.themes Demo.state)
    as (_ & _ & Hempty); [discriminate|].
  split.
  - destruct (Hfound (mkTheme "dark" "#000")) as (t & Hr & _ & Hid).
    + apply list_elem_of_further, list_elem_of_here.
    + reflexivity.
    + by exists t.
  - destruct Hempty as [Hr _]; [reflexivity| |exact Hr].
    intros t Hin. vm_compute in Hin.
    apply elem_of_cons in Hin as [->|Hin]; [discriminate|].
    apply list_elem_of_singleton in Hin as ->. discriminate.
Defined.

Lemma page_renders_nothing_without_themes_witness :
  demo_page (mkProps None None) None Demo.world = Ok ((None, None), Demo.world).
Proof.
  apply (page_renders_nothing_without_themes Demo.templates Demo.components
           Demo.host_toString).
  reflexivity.
Defined.

Lemma initial_state_throws_on_unknown_selection_witness :
  demo_page (mkProps None (Some Demo.themes)) None Demo.world = Throw TypeError
  ∧ ∃ view,
      demo_page (mkProps None (Some Demo.themes))
        (Some (mkState (VString "") (VString "") 2)) Demo.world
      = Ok ((Some (mkState (VString "") (VString "") 2), Some view), Demo.world)
      ∧ view_selection view = NoSelectionFound.
Proof.
  destruct (initial_state_throws_on_unknown_selection Demo.templates
              Demo.components Demo.host_toString
              (mkProps None (Some Demo.themes)) Demo.themes Demo.world)
    as (_ & Hmount & Hupdate); [reflexivity|reflexivity|reflexivity|].
  split; [exact Hmount|]. by apply Hupdate.
Defined.

(** ** The further properties on the small instance *)

Lemma dispatch_pushes_one_history_entry_witness :
  (∃ state' w' query,
     demo_reducer Demo.state (onSelectionChange "talk") Demo.world = Ok (state', w')
     ∧ state' = Demo.state
     ∧ history w' = ["?" +:+ query])
  ∧ (∃ state' w' query,
       demo_reducer Demo.state (onVariableChange "color" (VString "green"))
         Demo.world
       = Ok (state', w')
       ∧ history w' = ["?" +:+ query]).
Proof.
  destruct (dispatch_pushes_one_history_entry Demo.JSON_stringify
              Demo.queryString_parse Demo.queryString_stringify Demo.state
              (onSelectionChange "talk") Demo.world) as [Hid _].
  destruct (dispatch_pushes_one_history_entry Demo.JSON_stringify
              Demo.queryString_parse Demo.queryString_stringify Demo.state
              (onVariableChange "color" (VString "green")) Demo.world)
    as [_ Hvar].
  split.
  - destruct Hid as (state' & w' & query & Hr & Hh); [by left|].
    exists state', w', query. split; [exact Hr|]. split; [|exact Hh].
    vm_compute in Hr. by injection Hr as <- _.
  - destruct Hvar as (state' & w' & query & Hr & Hh);
      [reflexivity|by eexists|].
    by exists state', w', query.
Defined.

Lemma update_variable_single_key_copies_witness :
  ∃ w',
    demo_reducer Demo.state (onVariableChange "color" (VString "green"))
      Demo.world
    = Ok (mkState (VString "") (VString "talk") 3, w')
    ∧ heap w'
      = Demo.store
        ++ [Object PlainObject
              {[ "color" := VString "green"; "speaker" := VRef 1 ]}].
Proof.
  destruct (update_variable_single_key_copies Demo.JSON_stringify
              Demo.queryString_parse Demo.queryString_stringify Demo.state
              (onVariableChange "color" (VString "green")) Demo.world)
    as (w' & Hr & Hh);
    [reflexivity|reflexivity|by left|reflexivity|by eexists|].
  exists w'. split; [exact Hr|]. rewrite Hh. by vm_compute.
Defined.

Lemma update_variable_replaces_primitive_on_path_witness :
  ∃ w',
    demo_reducer Demo.state (onVariableChange "color.0" (VString "green"))
      Demo.world
    = Ok (mkState (VString "") (VString "talk") 3, w')
    ∧ heap w'
      = Demo.store
        ++ [Object PlainObject {[ "color" := VRef 4; "speaker" := VRef 1 ]};
            Object ArrayObject {[ "0" := VString "green" ]}]
    ∧ heap_get Demo.store 2 "color" = VString "red".
Proof.
  destruct (update_variable_replaces_primitive_on_path Demo.JSON_stringify
              Demo.queryString_parse Demo.queryString_stringify Demo.state
              Demo.world "color" "0" (VString "green") (VString "red"))
    as (w' & Hr & Hh & Hold & _);
    [reflexivity|reflexivity|reflexivity|reflexivity|reflexivity|reflexivity
    |reflexivity|reflexivity|by eexists|].
  exists w'. split; [exact Hr|]. split; [|exact Hold].
  rewrite Hh. by vm_compute.
Defined.

Lemma update_variable_writes_through_shared_object_witness :
  ∃ state' w',
    demo_reducer Demo.state (onVariableChange "speaker.name" (VString "Bob"))
      Demo.world
    = Ok (state', w')
    ∧ Lodash.get Demo.store (VRef (variables Demo.state)) "speaker.name"
      = VString "Ann"
    ∧ Lodash.get (heap w') (VRef (variables Demo.state)) "speaker.name"
      = VString "Bob".
Proof.
  destruct (update_variable_writes_through_shared_object Demo.JSON_stringify
              Demo.queryString_parse Demo.queryString_stringify Demo.state
              (onVariableChange "speaker.name" (VString "Bob")) Demo.world
              "speaker" "name" [] 1)
    as (state' & w' & Hr & _ & Hold & _).
  - reflexivity.
  - reflexivity.
  - reflexivity.
  - reflexivity.
  - vm_compute. repeat constructor.
  - vm_compute. repeat constructor.
  - change (NoDup [2; 1]). apply NoDup_cons. split; [|apply NoDup_singleton].
    rewrite list_elem_of_singleton. discriminate.
  - by eexists.
  - exists state', w'. split; [exact Hr|]. split; [reflexivity|exact Hold].
Defined.

Lemma two_single_key_updates_accumulate_witness :
  ∃ s1 w1 s2 w2,
    demo_reducer Demo.state (onVariableChange "color" (VString "green"))
      Demo.world
    = Ok (s1, w1)
    ∧ demo_reducer s1 (onVariableChange "title" (VString "Hi")) w1 = Ok (s2, w2)
    ∧ heap_get (heap w2) (variables s2) "title" = VString "Hi"
    ∧ heap_get (heap w2) (variables s2) "color" = VString "green"
    ∧ heap_lookup (heap w2) (variables s2) "speaker" = Some (VRef 1)
    ∧ length (history w2) = 2.
Proof.
  destruct (two_single_key_updates_accumulate Demo.JSON_stringify
              Demo.queryString_parse Demo.queryString_stringify Demo.state
              Demo.world "color" "title" (VString "green") (VString "Hi"))
    as (s1 & w1 & s2 & w2 & Hr1 & Hr2 & _ & Ht & Hc & Hother & Hlen);
    [reflexivity|reflexivity|reflexivity|reflexivity|reflexivity|reflexivity
    |by eexists|by eexists|].
  exists s1, w1, s2, w2. split; [exact Hr1|]. split; [exact Hr2|].
  split; [exact Ht|]. split; [by apply Hc|]. split; [|exact Hlen].
  by rewrite Hother.
Defined.

Lemma selection_dispatch_then_resolve_witness :
  ∃ state' w',
    demo_reducer Demo.state (onSelectionChange "badge") Demo.world
    = Ok (state', w')
    ∧ getSelection Demo.templates Demo.components Demo.host_toString (heap w')
        (selectionId state')
      = Some Demo.badge.
Proof.
  destruct (selection_dispatch_then_resolve Demo.templates Demo.components
              Demo.host_toString Demo.JSON_stringify Demo.queryString_parse
              Demo.queryString_stringify Demo.state (onSelectionChange "badge")
              Demo.world eq_refl)
    as (state' & w' & Hr & Hsel & _).
  exists state', w'. split; [exact Hr|]. by rewrite Hsel.
Defined.

Lemma selection_switch_keeps_variables_witness :
  ∃ state' w',
    demo_reducer (mkState (VString "") (VString "badge") 1)
      (onSelectionChange "talk") Demo.world
    = Ok (state', w')
    ∧ (mkVariable "color" (VRef 0), VUndefined)
      ∈ view_variables
          (page_view Demo.templates Demo.components Demo.host_toString
             (heap w') Demo.themes state')
    ∧ props_variables
        (view_main_props
           (page_view Demo.templates Demo.components Demo.host_toString
              (heap w') Demo.themes state'))
      !! "color" = None
    ∧ ("color", VString "blue")
      ∈ sidebar_variables
          (page_sidebar Demo.templates Demo.components Demo.host_toString
             (heap w') Demo.themes state').
Proof.
  destruct (selection_switch_keeps_variables Demo.templates Demo.components
              Demo.host_toString Demo.JSON_stringify Demo.queryString_parse
              Demo.queryString_stringify (mkState (VString "") (VString "badge") 1)
              (onSelectionChange "talk") Demo.world Demo.themes eq_refl)
    as (state' & w' & Hr & _ & _ & Hseed).
  destruct (Hseed Demo.talk [mkVariable "color" (VRef 0)]
                  (mkVariable "color" (VRef 0)))
    as (Hoverlay & Hprops & Hshown);
    [reflexivity|reflexivity|apply list_elem_of_here|reflexivity|].
  exists state', w'. split; [exact Hr|]. split; [exact Hoverlay|].
  split; [exact Hprops|].
  vm_compute in Hr. injection Hr as <- <-. exact Hshown.
Defined.

Lemma theme_selector_choice_resolves_witness :
  ∃ state' w',
    demo_reducer Demo.state
      (select_onChange
         (sidebar_themes
            (page_sidebar Demo.templates Demo.components Demo.host_toString
               Demo.store Demo.themes Demo.state))
         "dark")
      Demo.world
    = Ok (state', w')
    ∧ ∃ t',
        view_theme
          (page_view Demo.templates Demo.components Demo.host_toString
             (heap w') Demo.themes state')
        = Some t'
        ∧ theme_id t' = "dark".
Proof.
  destruct (theme_selector_choice_resolves Demo.templates Demo.components
              Demo.host_toString Demo.JSON_stringify Demo.queryString_parse
              Demo.queryString_stringify Demo.state Demo.world Demo.themes
              (mkTheme "dark" "#000"))
    as (_ & state' & w' & merged & Hr & _ & _ & _ & _ & t' & Ht & Hid & _).
  - apply list_elem_of_further, list_elem_of_here.
  - exists state', w'. split; [exact Hr|]. by exists t'.
Defined.

Lemma component_selector_links_known_selections_witness :
  SelectedOption "talk"
  ∈ sidebar_templates
      (page_sidebar Demo.templates Demo.components Demo.host_toString
         Demo.store Demo.themes Demo.state)
    ++ sidebar_components
         (page_sidebar Demo.templates Demo.components Demo.host_toString
            Demo.store Demo.themes Demo.state)
  ∧ ∃ state' w',
      demo_reducer Demo.state (onSelectionChange "badge") Demo.world
      = Ok (state', w')
      ∧ view_selection
          (page_view Demo.templates Demo.components Demo.host_toString
             (heap w') Demo.themes state')
        = Demo.badge.
Proof.
  destruct (component_selector_links_known_selections Demo.templates
              Demo.components Demo.host_toString Demo.JSON_stringify
              Demo.queryString_parse Demo.queryString_stringify Demo.state
              Demo.store Demo.themes "talk") as [Hselected _].
  { left. by eexists. }
  destruct (component_selector_links_known_selections Demo.templates
              Demo.components Demo.host_toString Demo.JSON_stringify
              Demo.queryString_parse Demo.queryString_stringify Demo.state
              Demo.store Demo.themes "badge") as [_ Hlink].
  { right. by eexists. }
  split; [by apply Hselected|].
  destruct Hlink as [_ Hclick]; [discriminate|].
  destruct (Hclick Demo.world) as (state' & w' & selection & Hr & _ & Hsel & Hview).
  exists state', w'. split; [exact Hr|]. rewrite Hview.
  vm_compute in Hr. injection Hr as <- <-. vm_compute in Hsel.
  by injection Hsel as <-.
Defined.

Lemma falsy_value_shows_default_witness :
  ∃ state' w',
    demo_reducer Demo.state (onVariableChange "color" (VString "")) Demo.world
    = Ok (state', w')
    ∧ props_variables
        (view_main_props
           (page_view Demo.templates Demo.components Demo.host_toString
              (heap w') Demo.themes state'))
      !! "color" = Some (VString "")
    ∧ ("color", VString "blue")
      ∈ sidebar_variables
          (page_sidebar Demo.templates Demo.components Demo.host_toString
             (heap w') Demo.themes state').
Proof.
  destruct (falsy_value_shows_default Demo.templates Demo.components
              Demo.host_toString Demo.JSON_stringify Demo.queryString_parse
              Demo.queryString_stringify Demo.state Demo.world Demo.themes
              "talk" Demo.talk [mkVariable "color" (VRef 0)]
              (mkVariable "color" (VRef 0)) (VString ""))
    as (state' & w' & Hr & _ & Hprops & Hshown);
    [reflexivity|reflexivity|reflexivity|apply list_elem_of_here|reflexivity
    |reflexivity|reflexivity|by eexists|].
  exists state', w'. split; [exact Hr|]. split.
  - apply Hprops; discriminate.
  - vm_compute in Hr. injection Hr as <- <-. exact Hshown.
Defined.

Lemma selection_without_variables_witness :
  demo_page (mkProps (Some {[ "selectionId" := VString "badge" ]})
                     (Some Demo.themes))
    None Demo.world
  = Throw TypeError
  ∧ ∃ view,
      demo_page (mkProps (Some {[ "selectionId" := VString "badge" ]})
                         (Some Demo.themes))
        (Some (mkState (VString "") (VString "badge") 2)) Demo.world
      = Ok ((Some (mkState (VString "") (VString "badge") 2), Some view),
            Demo.world)
      ∧ view_selection view = Demo.badge
      ∧ view_variables view = [].
Proof.
  destruct (selection_without_variables Demo.templates Demo.components
              Demo.host_toString
              (mkProps (Some {[ "selectionId" := VString "badge" ]})
                       (Some Demo.themes))
              Demo.themes Demo.world Demo.badge)
    as [Hthrow Hrender]; [reflexivity|reflexivity|reflexivity|].
  split; [exact Hthrow|].
  destruct (Hrender (mkState (VString "") (VString "badge") 2) eq_refl)
    as (view & Hr & Hsel & Hvars & _).
  by exists view.
Defined.

Lemma seeded_keys_are_declared_ids_witness :
  ∃ state w',
    init Demo.templates Demo.components Demo.host_toString
      {[ "selectionId" := VString "talk" ]} Demo.world
    = Ok (state, w')
    ∧ is_Some (heap_lookup (heap w') (variables state) "color")
    ∧ heap_lookup (heap w') (variables state) "speaker" = None
    ∧ history w' = [].
Proof.
  destruct (seeded_keys_are_declared_ids Demo.templates Demo.components
              Demo.host_toString {[ "selectionId" := VString "talk" ]}
              Demo.world Demo.talk [mkVariable "color" (VRef 0)])
    as (state & w' & Hr & Hkeys & _ & _ & Hh); [reflexivity|reflexivity|].
  exists state, w'. split; [exact Hr|]. split; [|split; [|exact Hh]].
  - apply Hkeys. apply list_elem_of_here.
  - apply eq_None_not_Some. intros Hs. apply Hkeys in Hs.
    apply list_elem_of_singleton in Hs. discriminate.
Defined.

Lemma seeded_last_duplicate_wins_witness :
  ∃ state w',
    init {[ "twice" := mkRenderable (λ _ _, Ok (Text "twice"))
                         (Some [mkVariable "color" VUndefined;
                                mkVariable "color" (VRef 0)])
                         VUndefined ]}
         ∅ Demo.host_toString {[ "selectionId" := VString "twice" ]} Demo.world
    = Ok (state, w')
    ∧ heap_lookup (heap w') (variables state) "color" = Some (VString "blue").
Proof.
  destruct (seeded_last_duplicate_wins
              {[ "twice" := mkRenderable (λ _ _, Ok (Text "twice"))
                              (Some [mkVariable "color" VUndefined;
                                     mkVariable "color" (VRef 0)])
                              VUndefined ]}
              ∅ Demo.host_toString {[ "selectionId" := VString "twice" ]}
              Demo.world
              (mkRenderable (λ _ _, Ok (Text "twice"))
                 (Some [mkVariable "color" VUndefined;
                        mkVariable "color" (VRef 0)])
                 VUndefined)
              [mkVariable "color" VUndefined] [] (mkVariable "color" (VRef 0)))
    as (state & w' & Hr & Hseed);
    [reflexivity|reflexivity|apply not_elem_of_nil|].
  exists state, w'. split; [exact Hr|]. etrans; [exact Hseed|]. reflexivity.
Defined.

Lemma resolveTheme_none_iff_no_themes_witness :
  resolveTheme [] Demo.state = None
  ∧ ∃ view,
      demo_page (mkProps None (Some [])) (Some Demo.state) Demo.world
      = Ok ((Some Demo.state, Some view), Demo.world)
      ∧ view_sidebar_background view = "".
Proof.
  destruct (resolveTheme_none_iff_no_themes Demo.templates Demo.components
              Demo.host_toString (mkProps None (Some [])) Demo.state Demo.world
              []) as [Hnone Hpage].
  split; [by apply Hnone|].
  destruct (Hpage eq_refl) as (view & Hr & _ & Hbg & _).
  by exists view.
Defined.

Lemma two_pushes_accumulate_witness :
  ∃ w1 w2,
    updateQuery DemoCodec.queryString_parse DemoCodec.queryString_stringify
      "themeId" (VString "dark") (mkWorld Demo.store "" [])
    = Ok (tt, w1)
    ∧ updateQuery DemoCodec.queryString_parse DemoCodec.queryString_stringify
        "selectionId" (VString "talk") w1
      = Ok (tt, w2)
    ∧ history w2 = ["?themeId=dark"; "?selectionId=talk&themeId=dark"].
Proof.
  destruct (two_pushes_accumulate DemoCodec.queryString_parse
              DemoCodec.queryString_stringify "themeId" "selectionId"
              (VString "dark") (VString "talk") (mkWorld Demo.store "" []))
    as (w1 & w2 & Hr1 & Hr2 & Hh & _); [by vm_compute|].
  exists w1, w2. split; [exact Hr1|]. split; [exact Hr2|]. rewrite Hh.
  by vm_compute.
Defined.
